(** * LS-8 emulator: the execution engine of [ls8/cpu.py]

    A shallow embedding of the [CPU] class: the register file, memory and
    flag vector are Python lists of unbounded integers, handlers are
    methods mutating the machine, and [run] is the fetch / dispatch loop.
    Handlers are written in a small state-and-exception monad so that the
    order of mutations and the point at which a Python exception is raised
    are those of the source. *)

From Stdlib Require Import Ascii.
From stdpp Require Import base numbers list strings gmap pretty.

Open Scope string_scope.
Open Scope list_scope.
Open Scope Z_scope.

(** ** Opcode constants (module level of cpu.py) *)

Definition ADD  : Z := 0xA0. (* 0b10100000 *)
Definition ADDI : Z := 0xCF. (* 0b11001111 *)
Definition SUB  : Z := 0xA1. (* 0b10100001 *)
Definition MUL  : Z := 0xA2. (* 0b10100010 *)
Definition DIV  : Z := 0xA3. (* 0b10100011 *)
Definition MOD  : Z := 0xA4. (* 0b10100100 *)
Definition INC  : Z := 0x65. (* 0b01100101 *)
Definition DEC  : Z := 0x66. (* 0b01100110 *)
Definition CMP  : Z := 0xA7. (* 0b10100111 *)
Definition AND  : Z := 0xA8. (* 0b10101000 *)
Definition NOT  : Z := 0x69. (* 0b01101001 *)
Definition OR   : Z := 0xAA. (* 0b10101010 *)
Definition XOR  : Z := 0xAB. (* 0b10101011 *)
Definition SHL  : Z := 0xAC. (* 0b10101100 *)
Definition SHR  : Z := 0xAD. (* 0b10101101 *)
Definition NOP  : Z := 0x00. (* 0b00000000 *)
Definition HLT  : Z := 0x01. (* 0b00000001 *)
Definition LDI  : Z := 0x82. (* 0b10000010 *)
Definition LD   : Z := 0x83. (* 0b10000011 *)
Definition ST   : Z := 0x84. (* 0b10000100 *)
Definition PUSH : Z := 0x45. (* 0b01000101 *)
Definition POP  : Z := 0x46. (* 0b01000110 *)
Definition PRN  : Z := 0x47. (* 0b01000111 *)
Definition PRA  : Z := 0x48. (* 0b01001000 *)
Definition CALL : Z := 0x50. (* 0b01010000 *)
Definition RET  : Z := 0x11. (* 0b00010001 *)
Definition JMP  : Z := 0x54. (* 0b01010100 *)
Definition JEQ  : Z := 0x55. (* 0b01010101 *)
Definition JNE  : Z := 0x56. (* 0b01010110 *)

(** ** Python lists indexed by integers

    [l[i]] accepts [-len(l) <= i < len(l)], a negative index counting from
    the end, and raises IndexError otherwise. *)

Definition py_index (len : nat) (i : Z) : option nat :=
  if bool_decide (0 ≤ i < Z.of_nat len) then Some (Z.to_nat i)
  else if bool_decide (- Z.of_nat len ≤ i < 0) then Some (Z.to_nat (i + Z.of_nat len))
  else None.

Definition py_get (l : list Z) (i : Z) : option Z :=
  k ← py_index (length l) i; l !! k.

Definition py_set (l : list Z) (i : Z) (v : Z) : option (list Z) :=
  k ← py_index (length l) i; Some (<[k := v]> l).

(** ** Machine state *)

(** The exceptions the engine can raise. *)
Inductive exn : Type :=
  | IndexError        (* list index out of range *)
  | KeyError          (* opcode missing from the branch table *)
  | ValueError        (* negative shift count *)
  | SystemExit        (* sys.exit() *)
  | Exception (msg : string).

(** The fields of a [CPU] object.  [stdout] collects the lines written by
    [print]; [ram_reads] is ghost state recording, oldest first, every
    address passed to [ram_read]. *)
Record CPU : Type := mkCPU {
  ram : list Z;
  reg : list Z;
  flags : list Z;
  pc : Z;
  running : bool;
  stdout : list string;
  ram_reads : list Z
}.

Definition flag_lt : Z := 5.
Definition flag_gt : Z := 6.
Definition flag_equal : Z := 7.
Definition stack_pointer : Z := 7.

Definition with_ram (l : list Z) (c : CPU) : CPU :=
  mkCPU l (reg c) (flags c) (pc c) (running c) (stdout c) (ram_reads c).
Definition with_reg (l : list Z) (c : CPU) : CPU :=
  mkCPU (ram c) l (flags c) (pc c) (running c) (stdout c) (ram_reads c).
Definition with_flags (l : list Z) (c : CPU) : CPU :=
  mkCPU (ram c) (reg c) l (pc c) (running c) (stdout c) (ram_reads c).
Definition with_pc (p : Z) (c : CPU) : CPU :=
  mkCPU (ram c) (reg c) (flags c) p (running c) (stdout c) (ram_reads c).
Definition with_running (b : bool) (c : CPU) : CPU :=
  mkCPU (ram c) (reg c) (flags c) (pc c) b (stdout c) (ram_reads c).
Definition with_print (line : string) (c : CPU) : CPU :=
  mkCPU (ram c) (reg c) (flags c) (pc c) (running c) (stdout c ++ [line]) (ram_reads c).
Definition with_read (address : Z) (c : CPU) : CPU :=
  mkCPU (ram c) (reg c) (flags c) (pc c) (running c) (stdout c) (ram_reads c ++ [address]).

(** [CPU.__init__], without the branch table, which never changes and is
    the constant [branchtable] below. *)
Definition init : CPU :=
  {| ram := replicate 255 0;
     reg := <[7%nat := 0xF4]> (replicate 8 0);
     flags := replicate 8 0;
     pc := 0;
     running := false;
     stdout := [];
     ram_reads := [] |}.

(** ** The monad of handlers: state passing with exceptions *)

Inductive outcome (A : Type) : Type :=
  | Ok (a : A) (c : CPU)
  | Raise (e : exn) (c : CPU).
Arguments Ok {A} a c.
Arguments Raise {A} e c.

Definition M (A : Type) : Type := CPU → outcome A.

Definition ret {A} (a : A) : M A := λ c, Ok a c.
Definition bind {A B} (m : M A) (k : A → M B) : M B :=
  λ c, match m c with
       | Ok a c' => k a c'
       | Raise e c' => Raise e c'
       end.
Definition raise {A} (e : exn) : M A := λ c, Raise e c.

Notation "x <~ m ;; k" := (bind m (λ x, k))
  (at level 100, m at next level, right associativity, only parsing).
Notation "m ;;; k" := (bind m (λ _, k))
  (at level 100, right associativity, only parsing).

Definition of_option {A} (o : option A) (e : exn) : M A :=
  match o with Some a => ret a | None => raise e end.

Definition get_reg (i : Z) : M Z := λ c, of_option (py_get (reg c) i) IndexError c.
Definition set_reg (i v : Z) : M unit :=
  λ c, match py_set (reg c) i v with
       | Some l => Ok () (with_reg l c)
       | None => Raise IndexError c
       end.
Definition get_ram (i : Z) : M Z := λ c, of_option (py_get (ram c) i) IndexError c.
Definition set_ram (i v : Z) : M unit :=
  λ c, match py_set (ram c) i v with
       | Some l => Ok () (with_ram l c)
       | None => Raise IndexError c
       end.
Definition get_flag (i : Z) : M Z := λ c, of_option (py_get (flags c) i) IndexError c.
Definition set_flag (i v : Z) : M unit :=
  λ c, match py_set (flags c) i v with
       | Some l => Ok () (with_flags l c)
       | None => Raise IndexError c
       end.
Definition get_pc : M Z := λ c, Ok (pc c) c.
Definition set_pc (p : Z) : M unit := λ c, Ok () (with_pc p c).
Definition set_running (b : bool) : M unit := λ c, Ok () (with_running b c).
Definition print (line : string) : M unit := λ c, Ok () (with_print line c).
Definition sys_exit : M unit := raise SystemExit.

(** ** The ALU ([CPU.alu])

    Python integers are unbounded: [&], [|], [^], [~], [<<], [>>] and [%]
    are those of [Z] ([%] takes the sign of the divisor, as [Z.modulo]
    does), and a shift by a negative count raises ValueError.  CPython
    also gives up on a left shift too large for its memory; integers here
    have no such limit, and the facts about SHL below are stated for a
    register in 0..255. *)

Definition py_shl (x n : Z) : M Z :=
  if bool_decide (n < 0) then raise ValueError else ret (Z.shiftl x n).
Definition py_shr (x n : Z) : M Z :=
  if bool_decide (n < 0) then raise ValueError else ret (Z.shiftr x n).

Definition alu (op : string) (reg_a reg_b : Z) : M unit :=
  if String.eqb op "ADD" then
    x <~ get_reg reg_a ;; y <~ get_reg reg_b ;; set_reg reg_a (x + y)
  else if String.eqb op "MUL" then
    x <~ get_reg reg_a ;; y <~ get_reg reg_b ;; set_reg reg_a (x * y)
  else if String.eqb op "CMP" then
    x <~ get_reg reg_a ;; y <~ get_reg reg_b ;;
    if bool_decide (x = y) then set_flag flag_equal 1
    else if bool_decide (x < y) then set_flag flag_lt 1
    else if bool_decide (x > y) then set_flag flag_gt 1
    else (set_flag flag_lt 0 ;;; set_flag flag_gt 0 ;;; set_flag flag_equal 0)
  else if String.eqb op "AND" then
    x <~ get_reg reg_a ;; y <~ get_reg reg_a ;; set_reg reg_a (Z.land x y)
  else if String.eqb op "OR" then
    x <~ get_reg reg_a ;; y <~ get_reg reg_a ;; set_reg reg_a (Z.lor x y)
  else if String.eqb op "XOR" then
    x <~ get_reg reg_a ;; y <~ get_reg reg_a ;; set_reg reg_a (Z.lxor x y)
  else if String.eqb op "NOT" then
    x <~ get_reg reg_a ;; set_reg reg_a (Z.lnot x)
  else if String.eqb op "SHL" then
    x <~ get_reg reg_a ;; n <~ get_reg reg_a ;; v <~ py_shl x n ;; set_reg reg_a v
  else if String.eqb op "SHR" then
    x <~ get_reg reg_a ;; n <~ get_reg reg_a ;; v <~ py_shr x n ;; set_reg reg_a v
  else if String.eqb op "MOD" then
    d <~ get_reg reg_b ;;
    (if bool_decide (d = 0) then (print "Error: Divide by Zero" ;;; sys_exit) else ret ()) ;;;
    x <~ get_reg reg_a ;; y <~ get_reg reg_b ;; set_reg reg_a (x `mod` y)
  else raise (Exception "Unsupported ALU operation").

(** ** Memory access ([CPU.ram_read], [CPU.ram_write]) *)

Definition ram_read (address : Z) : M Z :=
  λ c, get_ram address (with_read address c).

Definition ram_write (address value : Z) : M unit := set_ram address value.

(** ** Opcode handlers

    Every handler takes the three operand slots; an unused one is [_]. *)

Definition handler : Type := Z → Z → Z → M unit.

Definition handle_ADD : handler := λ operand_a operand_b _, alu "ADD" operand_a operand_b.
Definition handle_SUB : handler := λ _ _ _, ret ().
Definition handle_HLT : handler := λ _ _ _, set_running false.
Definition handle_LDI : handler := λ operand_a operand_b _, set_reg operand_a operand_b.
Definition handle_PRN : handler :=
  λ operand_a _ _, x <~ get_reg operand_a ;; print (pretty x).
Definition handle_MUL : handler := λ operand_a operand_b _, alu "MUL" operand_a operand_b.
Definition handle_DIV : handler := λ _ _ _, ret ().
Definition handle_MOD : handler := λ operand_a operand_b _, alu "MOD" operand_a operand_b.
Definition handle_INC : handler := λ _ _ _, ret ().
Definition handle_DEC : handler := λ _ _ _, ret ().
Definition handle_CMP : handler := λ operand_a operand_b _, alu "CMP" operand_a operand_b.
Definition handle_AND : handler := λ operand_a operand_b _, alu "AND" operand_a operand_b.
Definition handle_NOT : handler := λ operand_a operand_b _, alu "NOT" operand_a operand_b.
Definition handle_OR  : handler := λ operand_a operand_b _, alu "OR" operand_a operand_b.
Definition handle_XOR : handler := λ operand_a operand_b _, alu "XOR" operand_a operand_b.
Definition handle_SHL : handler := λ operand_a operand_b _, alu "SHL" operand_a operand_b.
Definition handle_SHR : handler := λ operand_a operand_b _, alu "SHR" operand_a operand_b.
Definition handle_NOP : handler := λ _ _ _, ret ().
Definition handle_LD  : handler := λ _ _ _, ret ().
Definition handle_ST  : handler := λ _ _ _, ret ().
Definition handle_PRA : handler := λ _ _ _, ret ().

(** [self.reg[sp] -= 1], then [self.ram[self.reg[sp]] = self.reg[operand_a]]:
    the right-hand side is read after the decrement and before the
    address. *)
Definition handle_PUSH : handler :=
  λ operand_a _ _,
    sp <~ get_reg stack_pointer ;; set_reg stack_pointer (sp - 1) ;;;
    v <~ get_reg operand_a ;; addr <~ get_reg stack_pointer ;; set_ram addr v.

Definition handle_POP : handler :=
  λ operand_a _ _,
    addr <~ get_reg stack_pointer ;; v <~ get_ram addr ;; set_reg operand_a v ;;;
    sp <~ get_reg stack_pointer ;; set_reg stack_pointer (sp + 1).

Definition handle_CALL : handler :=
  λ operand_a _ _,
    p <~ get_pc ;;
    let return_addr := p + 2 in
    sp <~ get_reg stack_pointer ;; set_reg stack_pointer (sp - 1) ;;;
    addr <~ get_reg stack_pointer ;; set_ram addr return_addr ;;;
    dest_addr <~ get_reg operand_a ;;
    set_pc dest_addr.

Definition handle_RET : handler :=
  λ _ _2 _3,
    let register := 0 in
    handle_POP register _2 _3 ;;;
    v <~ get_reg register ;; set_pc v.

Definition handle_JMP : handler :=
  λ register _ _, v <~ get_reg register ;; set_pc v.

Definition handle_JEQ : handler :=
  λ register _1 _2,
    f <~ get_flag flag_equal ;;
    if bool_decide (f = 1) then handle_JMP register _1 _2
    else p <~ get_pc ;; set_pc (p + 2).

Definition handle_JNE : handler :=
  λ register _1 _2,
    f <~ get_flag flag_equal ;;
    if bool_decide (f = 0) then handle_JMP register _1 _2
    else p <~ get_pc ;; set_pc (p + 2).

Definition handle_ADDI : handler :=
  λ destination register data,
    x <~ get_reg register ;; set_reg destination (x + data).

(** ** The dispatch table ([self.branchtable], filled in [__init__]) *)

Definition branchtable : gmap Z handler :=
  list_to_map
    [ (ADD, handle_ADD); (ADDI, handle_ADDI); (SUB, handle_SUB);
      (MUL, handle_MUL); (DIV, handle_DIV); (MOD, handle_MOD);
      (INC, handle_INC); (DEC, handle_DEC); (CMP, handle_CMP);
      (AND, handle_AND); (NOT, handle_NOT); (OR, handle_OR);
      (XOR, handle_XOR); (SHL, handle_SHL); (SHR, handle_SHR);
      (NOP, handle_NOP); (HLT, handle_HLT); (LDI, handle_LDI);
      (LD, handle_LD); (ST, handle_ST); (PUSH, handle_PUSH);
      (POP, handle_POP); (PRN, handle_PRN); (PRA, handle_PRA);
      (CALL, handle_CALL); (RET, handle_RET); (JMP, handle_JMP);
      (JEQ, handle_JEQ); (JNE, handle_JNE) ].

(** ** The execution loop ([CPU.run]) *)

(** [bin(n)] *)
Fixpoint bin_digits (p : positive) : string :=
  match p with
  | xH => "1"
  | xO q => bin_digits q +:+ "0"
  | xI q => bin_digits q +:+ "1"
  end.

Definition bin (n : Z) : string :=
  match n with
  | Z0 => "0b0"
  | Zpos p => "0b" +:+ bin_digits p
  | Zneg p => "-0b" +:+ bin_digits p
  end.

Definition inst_len (IR : Z) : Z := Z.shiftr (Z.land IR 0xC0) 6 + 1.
Definition incr_pc (IR : Z) : Z := Z.shiftr (Z.land IR 0x10) 4.

(** The four reads at the head of the loop body; they sit outside the
    [try], so an IndexError here leaves [run] uncaught. *)
Definition fetch : M (Z * Z * Z * Z) :=
  p <~ get_pc ;; IR <~ ram_read p ;;
  p1 <~ get_pc ;; operand_a <~ ram_read (p1 + 1) ;;
  p2 <~ get_pc ;; operand_b <~ ram_read (p2 + 2) ;;
  p3 <~ get_pc ;; operand_c <~ ram_read (p3 + 3) ;;
  ret (IR, operand_a, operand_b, operand_c).

(** [self.branchtable[IR](operand_a, operand_b, operand_c)] *)
Definition dispatch (IR operand_a operand_b operand_c : Z) : M unit :=
  match (branchtable !! IR : option handler) with
  | Some h => h operand_a operand_b operand_c
  | None => raise KeyError
  end.

(** How one pass through the loop body ends. *)
Inductive cycle_result : Type :=
  | Next (c : CPU)                 (* back to the loop test *)
  | Exited (c : CPU)               (* sys.exit() in the except clause *)
  | Uncaught (e : exn) (c : CPU).  (* exception propagating out of run *)

(** The bare [except:] catches whatever the dispatch raises, SystemExit
    included. *)
Definition cycle (c : CPU) : cycle_result :=
  match fetch c with
  | Raise e c1 => Uncaught e c1
  | Ok (IR, operand_a, operand_b, operand_c) c1 =>
      match dispatch IR operand_a operand_b operand_c c1 with
      | Raise _ c2 => Exited (with_print ("Invalid instruction " +:+ bin IR) c2)
      | Ok _ c2 =>
          if negb (bool_decide (incr_pc IR = 1))
          then Next (with_pc (pc c2 + inst_len IR) c2)
          else Next c2
      end
  end.

Inductive run_result : Type :=
  | Halted (c : CPU)                  (* the loop test failed: run returns *)
  | ProcessExit (c : CPU)
  | Traceback (e : exn) (c : CPU)
  | StillRunning (c : CPU).           (* the bound on cycles was reached *)

Fixpoint loop (fuel : nat) (c : CPU) : run_result :=
  if running c then
    match fuel with
    | O => StillRunning c
    | S fuel' =>
        match cycle c with
        | Next c' => loop fuel' c'
        | Exited c' => ProcessExit c'
        | Uncaught e c' => Traceback e c'
        end
    end
  else Halted c.

Definition run (fuel : nat) (c : CPU) : run_result :=
  loop fuel (with_running true c).

(** [CPU.load] once the program file has been parsed into integers: the
    bytes go to addresses 0, 1, 2, ... *)
Fixpoint load_from (address : Z) (program : list Z) : M unit :=
  match program with
  | [] => ret ()
  | instruction :: rest => set_ram address instruction ;;; load_from (address + 1) rest
  end.

Definition load (program : list Z) : M unit := load_from 0 program.

Definition loaded (program : list Z) : CPU :=
  match load program init with
  | Ok _ c => c
  | Raise _ c => c
  end.

(** ** Notions used in the statements *)

(** The sizes fixed by [__init__]; no method resizes a list. *)
Definition wf (c : CPU) : Prop :=
  length (reg c) = 8%nat ∧ length (ram c) = 255%nat ∧ length (flags c) = 8%nat.

(** The integers Python accepts as an index into a list of [len] cells. *)
Definition in_range (len : nat) (i : Z) : Prop :=
  - Z.of_nat len ≤ i < Z.of_nat len.

Definition reg_at (c : CPU) (i : Z) : option Z := py_get (reg c) i.
Definition ram_at (c : CPU) (i : Z) : option Z := py_get (ram c) i.
Definition flag_at (c : CPU) (i : Z) : option Z := py_get (flags c) i.

(** A computation that leaves the projection [f] of the machine alone,
    whether it returns or raises. *)
Definition keeps {A B} (f : CPU → B) (m : M A) : Prop :=
  ∀ c, match m c with Ok _ c' | Raise _ c' => f c' = f c end.

(** The opcodes whose handler assigns [self.pc]. *)
Definition control_flow : list Z := [CALL; RET; JMP; JEQ; JNE].

(** The machine after the four reads: only the read log has grown. *)
Definition fetched (c : CPU) : CPU :=
  {| ram := ram c; reg := reg c; flags := flags c; pc := pc c;
     running := running c; stdout := stdout c;
     ram_reads := ram_reads c ++ [pc c; pc c + 1; pc c + 2; pc c + 3] |}.

(** Reading a string of binary digits back, most significant first. *)
Fixpoint of_bin_digits (acc : Z) (s : string) : Z :=
  match s with
  | EmptyString => acc
  | String ch rest =>
      of_bin_digits (2 * acc + (if Ascii.eqb ch "1"%char then 1 else 0)) rest
  end.

(** ** Sample machines *)

(** A fresh machine with the given register file. *)
Definition with_registers (r0 r1 : Z) : CPU :=
  with_reg [r0; r1; 0; 0; 0; 0; 0; 0xF4] init.

(** A started machine whose memory begins with the given bytes. *)
Definition started (program : list Z) : CPU := with_running true (loaded program).

(** A machine about to return: 42 on top of the stack, 9 in register 0. *)
Definition returning : CPU :=
  with_ram (<[0xF4%nat := 42]> (ram init)) (with_registers 9 0).

(** ** The rest of the module: name table, loader, trace *)

(** The module-level [instructions] dictionary, kept for debugging. *)
Definition instructions : gmap Z string :=
  list_to_map
    [ (0xA0, "ADD"); (0xA1, "SUB"); (0xA2, "MUL"); (0xA3, "DIV");
      (0xA4, "MOD"); (0x65, "INC"); (0x66, "DEC"); (0xA7, "CMP");
      (0xA8, "AND"); (0x69, "NOT"); (0xAA, "OR"); (0xAB, "XOR");
      (0xAC, "SHL"); (0xAD, "SHR"); (0x00, "NOP"); (0x01, "HLT");
      (0x82, "LDI"); (0x83, "LD"); (0x84, "ST"); (0x45, "PUSH");
      (0x46, "POP"); (0x47, "PRN"); (0x48, "PRA"); (0x50, "CALL");
      (0x11, "RET"); (0x54, "JMP"); (0x55, "JEQ"); (0x56, "JNE") ].

(** The state a pass through the loop body, or a whole run, ends in. *)
Definition cycle_state (r : cycle_result) : CPU :=
  match r with Next c | Exited c | Uncaught _ c => c end.

Definition run_state (r : run_result) : CPU :=
  match r with Halted c | ProcessExit c | Traceback _ c | StillRunning c => c end.

(** [re.compile("\d+").match(line)]: the longest run of digits at the
    very start of the line, none meaning no match.  Lines are taken to be
    ASCII. *)
Definition is_digit (ch : ascii) : bool :=
  (48 <=? nat_of_ascii ch)%nat && (nat_of_ascii ch <=? 57)%nat.

Fixpoint leading_digits (line : string) : string :=
  match line with
  | EmptyString => EmptyString
  | String ch rest =>
      if is_digit ch then String ch (leading_digits rest) else EmptyString
  end.

Fixpoint all_binary (s : string) : bool :=
  match s with
  | EmptyString => true
  | String ch rest =>
      (Ascii.eqb ch "0"%char || Ascii.eqb ch "1"%char) && all_binary rest
  end.

(** [int(s, 2)] on a non-empty run of digits. *)
Definition int_base2 (s : string) : M Z :=
  if all_binary s then ret (of_bin_digits 0 s) else raise ValueError.

(** [CPU.load] on the lines of the program file; the result is the
    address after the last byte, which the method leaves in
    [self.stack_end] and nothing reads. *)
Fixpoint load_lines_from (address : Z) (lines : list string) : M Z :=
  match lines with
  | [] => ret address
  | line :: rest =>
      match leading_digits line with
      | EmptyString => load_lines_from address rest
      | matched =>
          instruction <~ int_base2 matched ;;
          set_ram address instruction ;;;
          load_lines_from (address + 1) rest
      end
  end.

Definition load_file (lines : list string) : M Z := load_lines_from 0 lines.

(** ["%02X" % n]: upper-case hexadecimal, padded with a zero to two
    characters, the sign counting as one. *)
Fixpoint hex_string (u : Hexadecimal.uint) : string :=
  match u with
  | Hexadecimal.Nil => EmptyString
  | Hexadecimal.D0 r => String "0" (hex_string r)
  | Hexadecimal.D1 r => String "1" (hex_string r)
  | Hexadecimal.D2 r => String "2" (hex_string r)
  | Hexadecimal.D3 r => String "3" (hex_string r)
  | Hexadecimal.D4 r => String "4" (hex_string r)
  | Hexadecimal.D5 r => String "5" (hex_string r)
  | Hexadecimal.D6 r => String "6" (hex_string r)
  | Hexadecimal.D7 r => String "7" (hex_string r)
  | Hexadecimal.D8 r => String "8" (hex_string r)
  | Hexadecimal.D9 r => String "9" (hex_string r)
  | Hexadecimal.Da r => String "A" (hex_string r)
  | Hexadecimal.Db r => String "B" (hex_string r)
  | Hexadecimal.Dc r => String "C" (hex_string r)
  | Hexadecimal.Dd r => String "D" (hex_string r)
  | Hexadecimal.De r => String "E" (hex_string r)
  | Hexadecimal.Df r => String "F" (hex_string r)
  end.

Definition hex2 (n : Z) : string :=
  match n with
  | Z0 => "00"
  | Zpos p =>
      let s := hex_string (Pos.to_hex_uint p) in
      if (String.length s <? 2)%nat then "0" +:+ s else s
  | Zneg p => "-" +:+ hex_string (Pos.to_hex_uint p)
  end.

(** The register columns of [trace]: each [print(..., end="")] extends
    the line; if a register is missing the text written so far stays as
    an unfinished last entry of [stdout]. *)
Fixpoint trace_registers (text : string) (indices : list Z) : M unit :=
  match indices with
  | [] => print text
  | i :: rest =>
      λ c, match get_reg i c with
           | Ok v c' => trace_registers (text +:+ " " +:+ hex2 v) rest c'
           | Raise e c' => Raise e (with_print text c')
           end
  end.

(** [CPU.trace]: the four values are read before anything is printed. *)
Definition trace : M unit :=
  p <~ get_pc ;;
  p0 <~ get_pc ;; x0 <~ ram_read p0 ;;
  p1 <~ get_pc ;; x1 <~ ram_read (p1 + 1) ;;
  p2 <~ get_pc ;; x2 <~ ram_read (p2 + 2) ;;
  trace_registers
    ("TRACE: " +:+ hex2 p +:+ " | " +:+ hex2 x0 +:+ " " +:+ hex2 x1 +:+ " "
       +:+ hex2 x2 +:+ " |")
    [0; 1; 2; 3; 4; 5; 6; 7].

(** * Basic facts *)

Section PyList.
Implicit Types (l : list Z) (i j v : Z) (k : nat).

Lemma py_index_lt len i k : py_index len i = Some k → (k < len)%nat.
Proof. unfold py_index. repeat case_bool_decide; intros; simplify_eq; lia. Qed.

Lemma py_index_in_range len i : in_range len i ↔ is_Some (py_index len i).
Proof.
  unfold in_range, py_index.
  repeat case_bool_decide; split; intros H'; try (by eexists); try lia;
    by destruct H'.
Qed.

Lemma py_index_nonneg len i :
  0 ≤ i < Z.of_nat len → py_index len i = Some (Z.to_nat i).
Proof. intros. unfold py_index. by rewrite bool_decide_eq_true_2. Qed.

Lemma py_get_Some l i k :
  py_index (length l) i = Some k → py_get l i = l !! k.
Proof. unfold py_get. by intros ->. Qed.

Lemma py_get_is_Some l i : in_range (length l) i ↔ is_Some (py_get l i).
Proof.
  rewrite py_index_in_range. unfold py_get.
  destruct (py_index (length l) i) as [k|] eqn:E; simpl.
  - split; [intros _|by eauto].
    apply lookup_lt_is_Some. eauto using py_index_lt.
  - split; intros []; done.
Qed.

Lemma py_get_inv l i x :
  py_get l i = Some x → ∃ k, py_index (length l) i = Some k ∧ l !! k = Some x.
Proof.
  unfold py_get. destruct (py_index (length l) i); simpl; [eauto|done].
Qed.

Lemma py_set_Some l i v k :
  py_index (length l) i = Some k → py_set l i v = Some (<[k := v]> l).
Proof. unfold py_set. by intros ->. Qed.

Lemma py_get_insert_eq l i k v :
  py_index (length l) i = Some k → py_get (<[k := v]> l) i = Some v.
Proof.
  intros E. unfold py_get. rewrite length_insert, E. simpl.
  apply list_lookup_insert_eq. eauto using py_index_lt.
Qed.

Lemma py_get_insert_ne l j k k' v :
  py_index (length l) j = Some k' → k ≠ k' →
  py_get (<[k := v]> l) j = py_get l j.
Proof.
  intros E Hne. unfold py_get. rewrite length_insert, E. simpl.
  by apply list_lookup_insert_ne.
Qed.
End PyList.

(** Each primitive on a machine whose index is known to be valid. *)
Section Primitives.
Implicit Types (c : CPU) (i v x : Z) (k : nat).

Lemma get_reg_ok c i k x :
  py_index (length (reg c)) i = Some k → reg c !! k = Some x →
  get_reg i c = Ok x c.
Proof. intros E L. unfold get_reg. by rewrite (py_get_Some _ _ _ E), L. Qed.

Lemma set_reg_ok c i k v :
  py_index (length (reg c)) i = Some k →
  set_reg i v c = Ok () (with_reg (<[k := v]> (reg c)) c).
Proof. intros E. unfold set_reg. by rewrite (py_set_Some _ _ _ _ E). Qed.

Lemma get_ram_ok c i k x :
  py_index (length (ram c)) i = Some k → ram c !! k = Some x →
  get_ram i c = Ok x c.
Proof. intros E L. unfold get_ram. by rewrite (py_get_Some _ _ _ E), L. Qed.

Lemma set_ram_ok c i k v :
  py_index (length (ram c)) i = Some k →
  set_ram i v c = Ok () (with_ram (<[k := v]> (ram c)) c).
Proof. intros E. unfold set_ram. by rewrite (py_set_Some _ _ _ _ E). Qed.

Lemma get_flag_ok c i k x :
  py_index (length (flags c)) i = Some k → flags c !! k = Some x →
  get_flag i c = Ok x c.
Proof. intros E L. unfold get_flag. by rewrite (py_get_Some _ _ _ E), L. Qed.

Lemma set_flag_ok c i k v :
  py_index (length (flags c)) i = Some k →
  set_flag i v c = Ok () (with_flags (<[k := v]> (flags c)) c).
Proof. intros E. unfold set_flag. by rewrite (py_set_Some _ _ _ _ E). Qed.

Lemma get_reg_at c i x : reg_at c i = Some x → get_reg i c = Ok x c.
Proof. unfold reg_at, get_reg. by intros ->. Qed.

Lemma get_ram_at c i x : ram_at c i = Some x → get_ram i c = Ok x c.
Proof. unfold ram_at, get_ram. by intros ->. Qed.

Lemma get_flag_at c i x : flag_at c i = Some x → get_flag i c = Ok x c.
Proof. unfold flag_at, get_flag. by intros ->. Qed.
End Primitives.

(** ** Frame facts: what a computation cannot touch *)

Create HintDb keeps discriminated.

Section Keeps.
Context {B : Type} (f : CPU → B).

Lemma keeps_ret {A} (a : A) : keeps f (ret a).
Proof. by intros c. Qed.

Lemma keeps_raise {A} e : keeps f (raise (A := A) e).
Proof. by intros c. Qed.

Lemma keeps_bind {A A'} (m : M A) (k : A → M A') :
  keeps f m → (∀ a, keeps f (k a)) → keeps f (bind m k).
Proof.
  intros Hm Hk c. unfold bind. specialize (Hm c).
  destruct (m c) as [a c1|e c1]; [|done].
  specialize (Hk a c1). destruct (k a c1); congruence.
Qed.

Lemma keeps_if {A} (b : bool) (m1 m2 : M A) :
  keeps f m1 → keeps f m2 → keeps f (if b then m1 else m2).
Proof. by destruct b. Qed.

Lemma keeps_of_option {A} (o : option A) e : keeps f (of_option o e).
Proof. destruct o; [apply keeps_ret|apply keeps_raise]. Qed.
End Keeps.

#[local] Hint Resolve keeps_ret keeps_raise keeps_of_option : keeps.
#[local] Hint Extern 2 (keeps _ (bind _ _)) => apply keeps_bind; [|intros] : keeps.
#[local] Hint Extern 2 (keeps _ (if _ then _ else _)) => apply keeps_if : keeps.

Ltac keeps_prim :=
  let c := fresh "c" in
  intros c; cbv beta delta [get_reg set_reg get_ram set_ram get_flag set_flag
    get_pc set_pc set_running print sys_exit of_option ret raise ram_read];
  repeat (case_match; cbv beta in * ); by simplify_eq/=.

Lemma keeps_pc_get_reg i : keeps pc (get_reg i). Proof. keeps_prim. Qed.
Lemma keeps_pc_set_reg i v : keeps pc (set_reg i v). Proof. keeps_prim. Qed.
Lemma keeps_pc_get_ram i : keeps pc (get_ram i). Proof. keeps_prim. Qed.
Lemma keeps_pc_set_ram i v : keeps pc (set_ram i v). Proof. keeps_prim. Qed.
Lemma keeps_pc_get_flag i : keeps pc (get_flag i). Proof. keeps_prim. Qed.
Lemma keeps_pc_set_flag i v : keeps pc (set_flag i v). Proof. keeps_prim. Qed.
Lemma keeps_pc_get_pc : keeps pc get_pc. Proof. keeps_prim. Qed.
Lemma keeps_pc_set_running b : keeps pc (set_running b). Proof. keeps_prim. Qed.
Lemma keeps_pc_print s : keeps pc (print s). Proof. keeps_prim. Qed.
Lemma keeps_pc_sys_exit : keeps pc sys_exit. Proof. keeps_prim. Qed.
Lemma keeps_pc_ram_read i : keeps pc (ram_read i). Proof. keeps_prim. Qed.

#[local] Hint Resolve keeps_pc_get_reg keeps_pc_set_reg keeps_pc_get_ram
  keeps_pc_set_ram keeps_pc_get_flag keeps_pc_set_flag keeps_pc_get_pc
  keeps_pc_set_running keeps_pc_print keeps_pc_sys_exit keeps_pc_ram_read : keeps.

Lemma keeps_reads_get_reg i : keeps ram_reads (get_reg i). Proof. keeps_prim. Qed.
Lemma keeps_reads_set_reg i v : keeps ram_reads (set_reg i v). Proof. keeps_prim. Qed.
Lemma keeps_reads_get_ram i : keeps ram_reads (get_ram i). Proof. keeps_prim. Qed.
Lemma keeps_reads_set_ram i v : keeps ram_reads (set_ram i v). Proof. keeps_prim. Qed.
Lemma keeps_reads_get_flag i : keeps ram_reads (get_flag i). Proof. keeps_prim. Qed.
Lemma keeps_reads_set_flag i v : keeps ram_reads (set_flag i v). Proof. keeps_prim. Qed.
Lemma keeps_reads_get_pc : keeps ram_reads get_pc. Proof. keeps_prim. Qed.
Lemma keeps_reads_set_pc p : keeps ram_reads (set_pc p). Proof. keeps_prim. Qed.
Lemma keeps_reads_set_running b : keeps ram_reads (set_running b). Proof. keeps_prim. Qed.
Lemma keeps_reads_print s : keeps ram_reads (print s). Proof. keeps_prim. Qed.
Lemma keeps_reads_sys_exit : keeps ram_reads sys_exit. Proof. keeps_prim. Qed.

#[local] Hint Resolve keeps_reads_get_reg keeps_reads_set_reg keeps_reads_get_ram
  keeps_reads_set_ram keeps_reads_get_flag keeps_reads_set_flag keeps_reads_get_pc
  keeps_reads_set_pc keeps_reads_set_running keeps_reads_print
  keeps_reads_sys_exit : keeps.

Lemma keeps_py_shl {B} (f : CPU → B) x n : keeps f (py_shl x n).
Proof. unfold py_shl. case_bool_decide; auto with keeps. Qed.
Lemma keeps_py_shr {B} (f : CPU → B) x n : keeps f (py_shr x n).
Proof. unfold py_shr. case_bool_decide; auto with keeps. Qed.
#[local] Hint Resolve keeps_py_shl keeps_py_shr : keeps.

(** The ALU writes registers and flags only. *)
Lemma alu_keeps_pc op a b : keeps pc (alu op a b).
Proof. unfold alu. auto 30 with keeps. Qed.

Lemma alu_keeps_reads op a b : keeps ram_reads (alu op a b).
Proof. unfold alu. auto 30 with keeps. Qed.

(** ** The decoder *)

(** The loop masks and then shifts; shifting and then masking, as the
    instruction layout is usually described, gives the same numbers. *)
Lemma inst_len_shift_mask IR : inst_len IR = Z.land (Z.shiftr IR 6) 3 + 1.
Proof. unfold inst_len. by rewrite Z.shiftr_land. Qed.

Lemma incr_pc_shift_mask IR : incr_pc IR = Z.land (Z.shiftr IR 4) 1.
Proof. unfold incr_pc. by rewrite Z.shiftr_land. Qed.

Lemma inst_len_bounds IR : 1 ≤ inst_len IR ≤ 4.
Proof.
  rewrite inst_len_shift_mask.
  change 3 with (Z.ones 2). rewrite Z.land_ones by lia.
  pose proof (Z.mod_pos_bound (Z.shiftr IR 6) (2 ^ 2)). lia.
Qed.

(** ** The dispatch table, entry by entry *)

Lemma branchtable_entries IR h :
  branchtable !! IR = Some h →
  (IR, h) ∈
    [ (ADD, handle_ADD); (ADDI, handle_ADDI); (SUB, handle_SUB);
      (MUL, handle_MUL); (DIV, handle_DIV); (MOD, handle_MOD);
      (INC, handle_INC); (DEC, handle_DEC); (CMP, handle_CMP);
      (AND, handle_AND); (NOT, handle_NOT); (OR, handle_OR);
      (XOR, handle_XOR); (SHL, handle_SHL); (SHR, handle_SHR);
      (NOP, handle_NOP); (HLT, handle_HLT); (LDI, handle_LDI);
      (LD, handle_LD); (ST, handle_ST); (PUSH, handle_PUSH);
      (POP, handle_POP); (PRN, handle_PRN); (PRA, handle_PRA);
      (CALL, handle_CALL); (RET, handle_RET); (JMP, handle_JMP);
      (JEQ, handle_JEQ); (JNE, handle_JNE) ].
Proof. apply elem_of_list_to_map_2. Qed.

(** Membership in a literal list. *)
Ltac in_list :=
  solve [repeat first [apply list_elem_of_here | apply list_elem_of_further]].

(** Split a table membership into its twenty-nine entries. *)
Ltac each_entry H :=
  repeat (apply elem_of_cons in H as [H|H]; [simplify_eq|]);
  [..|by apply elem_of_nil in H].

(** In the table, bit 4 of the opcode is set exactly for the five
    control-flow instructions. *)
Lemma incr_pc_control_flow IR h :
  branchtable !! IR = Some h → (incr_pc IR = 1 ↔ IR ∈ control_flow).
Proof.
  intros H%branchtable_entries. unfold control_flow.
  each_entry H; split; intros Hx;
    first
      [ by vm_compute
      | by vm_compute in Hx
      | in_list
      | repeat (apply elem_of_cons in Hx as [Hx|Hx]; [by vm_compute in Hx|]);
        by apply elem_of_nil in Hx ].
Qed.

(** Handlers of the other twenty-four opcodes never assign [self.pc]. *)
Lemma handler_keeps_pc IR h a b d :
  branchtable !! IR = Some h → IR ∉ control_flow → keeps pc (h a b d).
Proof.
  intros H%branchtable_entries Hnot.
  each_entry H;
    try (by exfalso; apply Hnot; unfold control_flow; in_list);
    try apply alu_keeps_pc;
    try (cbv beta delta [handle_SUB handle_HLT handle_LDI handle_PRN handle_DIV
           handle_INC handle_DEC handle_NOP handle_LD handle_ST handle_PRA
           handle_PUSH handle_POP handle_ADDI];
         auto 20 with keeps).
Qed.

(** No handler goes through [ram_read]: they index [self.ram] directly. *)
Lemma handle_POP_keeps_reads a b d : keeps ram_reads (handle_POP a b d).
Proof. unfold handle_POP. auto 20 with keeps. Qed.
#[local] Hint Resolve handle_POP_keeps_reads : keeps.

Lemma handle_JMP_keeps_reads a b d : keeps ram_reads (handle_JMP a b d).
Proof. unfold handle_JMP. auto 20 with keeps. Qed.
#[local] Hint Resolve handle_JMP_keeps_reads : keeps.

Lemma handler_keeps_reads IR h a b d :
  branchtable !! IR = Some h → keeps ram_reads (h a b d).
Proof.
  intros H%branchtable_entries.
  each_entry H;
    try apply alu_keeps_reads;
    cbv beta delta [handle_SUB handle_HLT handle_LDI handle_PRN handle_DIV
      handle_INC handle_DEC handle_NOP handle_LD handle_ST handle_PRA
      handle_PUSH handle_ADDI handle_CALL handle_RET handle_JEQ handle_JNE];
    cbv zeta; auto 20 with keeps.
Qed.

Lemma dispatch_keeps_reads IR a b d : keeps ram_reads (dispatch IR a b d).
Proof.
  unfold dispatch. destruct (branchtable !! IR) eqn:E.
  - eauto using handler_keeps_reads.
  - apply keeps_raise.
Qed.

(** ** The fetch stage *)

Lemma fetch_Ok c IR a b d c1 :
  fetch c = Ok (IR, a, b, d) c1 ↔
  c1 = fetched c ∧ ram_at c (pc c) = Some IR ∧ ram_at c (pc c + 1) = Some a ∧
  ram_at c (pc c + 2) = Some b ∧ ram_at c (pc c + 3) = Some d.
Proof.
  unfold fetch, fetched, ram_at, bind, get_pc, ram_read, get_ram, of_option,
    ret, raise, with_read.
  simpl.
  destruct (py_get (ram c) (pc c)) as [x0|]; simpl;
    [destruct (py_get (ram c) (pc c + 1)) as [x1|]; simpl;
     [destruct (py_get (ram c) (pc c + 2)) as [x2|]; simpl;
      [destruct (py_get (ram c) (pc c + 3)) as [x3|]; simpl|]|]|];
    (split; [intros ?; simplify_eq | intros (? & ? & ? & ? & ?); simplify_eq]);
    rewrite <- ?(assoc_L (++)); simpl; done.
Qed.

(** * The execution loop *)

Section Cycle.
Implicit Types (c : CPU) (IR a b d : Z) (h : handler).

(** What a cycle does once its fetch is known, by the three ways the
    dispatch can end. *)
Lemma cycle_unknown c IR a b d c1 :
  fetch c = Ok (IR, a, b, d) c1 → branchtable !! IR = None →
  cycle c = Exited (with_print ("Invalid instruction " +:+ bin IR) c1).
Proof.
  intros Hf Hb. unfold cycle, dispatch.
  rewrite Hf. cbv beta iota. by rewrite Hb.
Qed.

Lemma cycle_raise c IR a b d c1 h e c2 :
  fetch c = Ok (IR, a, b, d) c1 → branchtable !! IR = Some h →
  h a b d c1 = Raise e c2 →
  cycle c = Exited (with_print ("Invalid instruction " +:+ bin IR) c2).
Proof.
  intros Hf Hb Hh. unfold cycle, dispatch.
  rewrite Hf. cbv beta iota. by rewrite Hb, Hh.
Qed.

Lemma cycle_return c IR a b d c1 h c2 :
  fetch c = Ok (IR, a, b, d) c1 → branchtable !! IR = Some h →
  h a b d c1 = Ok () c2 →
  cycle c = Next (if bool_decide (IR ∈ control_flow) then c2
                  else with_pc (pc c2 + inst_len IR) c2).
Proof.
  intros Hf Hb Hh. unfold cycle, dispatch.
  rewrite Hf. cbv beta iota. rewrite Hb, Hh.
  pose proof (incr_pc_control_flow _ _ Hb) as Hbit.
  repeat case_bool_decide; simpl; tauto.
Qed.

(** A cycle that returns to the loop test went through a handler. *)
Lemma cycle_Next_inv c c' :
  cycle c = Next c' →
  ∃ IR a b d h c2,
    fetch c = Ok (IR, a, b, d) (fetched c) ∧ branchtable !! IR = Some h ∧
    h a b d (fetched c) = Ok () c2 ∧
    c' = if bool_decide (IR ∈ control_flow) then c2
         else with_pc (pc c2 + inst_len IR) c2.
Proof.
  intros Hc. destruct (fetch c) as [[[[IR a] b] d] c1|e c1] eqn:Hf.
  2:{ unfold cycle in Hc. by rewrite Hf in Hc. }
  assert (c1 = fetched c) as -> by (by apply fetch_Ok in Hf as (-> & _)).
  destruct (branchtable !! IR) as [h|] eqn:Hb.
  2:{ by rewrite (cycle_unknown _ _ _ _ _ _ Hf Hb) in Hc. }
  destruct (h a b d (fetched c)) as [[] c2|e c2] eqn:Hh.
  2:{ by rewrite (cycle_raise _ _ _ _ _ _ _ _ _ Hf Hb Hh) in Hc. }
  rewrite (cycle_return _ _ _ _ _ _ _ _ Hf Hb Hh) in Hc.
  exists IR, a, b, d, h, c2. by simplify_eq.
Qed.
End Cycle.


Lemma loop_step fuel c :
  running c = true →
  loop (S fuel) c =
    match cycle c with
    | Next c' => loop fuel c'
    | Exited c' => ProcessExit c'
    | Uncaught e c' => Traceback e c'
    end.
Proof. intros H. cbn [loop]. by rewrite H. Qed.

Lemma loop_stopped fuel c : running c = false → loop fuel c = Halted c.
Proof. intros H. destruct fuel; cbn [loop]; by rewrite H. Qed.

(** ** [bin] writes the opcode in base two *)

Lemma of_bin_digits_app acc s t :
  of_bin_digits acc (s +:+ t) = of_bin_digits (of_bin_digits acc s) t.
Proof. revert acc. induction s as [|ch s IH]; intros acc; simpl; [done|apply IH]. Qed.

Lemma bin_digits_value p : of_bin_digits 0 (bin_digits p) = Z.pos p.
Proof.
  induction p as [p IH|p IH|]; simpl; [| |done];
    rewrite of_bin_digits_app, IH; simpl; lia.
Qed.


(** C10. The [except] clause around the dispatch catches every exception:
    when the handler of an opcode that is in the branch table raises, the
    cycle prints that opcode as an invalid instruction and the process
    exits.  A register operand outside the register file (LDI with
    register 8) is such a case. *)
Theorem handler_exception_reported_invalid
    (c c1 c2 : CPU) (IR a b d : Z) (h : handler) (e : exn) :
  running c = true →
  fetch c = Ok (IR, a, b, d) c1 →
  branchtable !! IR = Some h →
  h a b d c1 = Raise e c2 →
  cycle c = Exited (with_print ("Invalid instruction " +:+ bin IR) c2) ∧
  ∀ fuel, loop (S fuel) c
          = ProcessExit (with_print ("Invalid instruction " +:+ bin IR) c2).
Proof.
  intros Hrun Hf Hb Hh.
  pose proof (cycle_raise _ _ _ _ _ _ _ _ _ Hf Hb Hh) as Hc.
  split; [done|]. intros fuel. by rewrite (loop_step _ _ Hrun), Hc.
Qed.

Lemma handler_exception_reported_invalid_witness :
  branchtable !! LDI = Some handle_LDI ∧
  handle_LDI 8 5 0 (fetched (started [LDI; 8; 5]))
  = Raise IndexError (fetched (started [LDI; 8; 5])) ∧
  cycle (started [LDI; 8; 5])
  = Exited (with_print "Invalid instruction 0b10000010"
              (fetched (started [LDI; 8; 5]))) ∧
  ∀ fuel, loop (S fuel) (started [LDI; 8; 5])
          = ProcessExit (with_print "Invalid instruction 0b10000010"
                           (fetched (started [LDI; 8; 5]))).
Proof.
  split; [reflexivity|]. split; [reflexivity|].
  apply (handler_exception_reported_invalid
           (started [LDI; 8; 5]) (fetched (started [LDI; 8; 5]))
           (fetched (started [LDI; 8; 5])) LDI 8 5 0 handle_LDI IndexError);
    reflexivity.
Defined.

(** ** What the loop reads *)

Lemma cycle_reads c c' :
  cycle c = Next c' ∨ cycle c = Exited c' →
  ram_reads c' = ram_reads c ++ [pc c; pc c + 1; pc c + 2; pc c + 3].
Proof.
  unfold cycle.
  destruct (fetch c) as [[[[IR a] b] d] c1|e c1] eqn:Hf; [|by intros [|]].
  apply fetch_Ok in Hf as (-> & _).
  pose proof (dispatch_keeps_reads IR a b d (fetched c)) as Hk.
  destruct (dispatch IR a b d (fetched c)) as [[] c2|e c2].
  - case_match; intros [|]; simplify_eq; simpl; by rewrite Hk.
  - intros [|]; simplify_eq; simpl; by rewrite Hk.
Qed.

(** C8, as stated, fails: the first cycle of a fresh machine, which
    executes the one-byte NOP at address 0, reads address 3. *)
Lemma NOP_cycle_reads_beyond_pc_plus_2 :
  ¬ (∀ c', cycle init = Next c' →
           ∀ address, address ∈ ram_reads c' → pc init ≤ address ≤ pc init + 2).
Proof.
  intros H.
  specialize (H (with_pc 1 (fetched init)) eq_refl 3).
  assert (3 ∈ ram_reads (with_pc 1 (fetched init))) as Hin by (simpl; in_list).
  apply H in Hin. simpl in Hin. lia.
Qed.

(** C8, amended.  Every cycle whose fetch completes reads, through
    [ram_read], exactly four cells, in this order: the opcode at [pc] and
    the three operand slots at [pc + 1], [pc + 2] and [pc + 3], whatever
    the length of the instruction; nothing else is read that way. *)
Theorem cycle_reads_opcode_and_three_operands (c c' : CPU) :
  cycle c = Next c' ∨ cycle c = Exited c' →
  ram_reads c' = ram_reads c ++ [pc c; pc c + 1; pc c + 2; pc c + 3] ∧
  ∃ IR a b d,
    ram_at c (pc c) = Some IR ∧ ram_at c (pc c + 1) = Some a ∧
    ram_at c (pc c + 2) = Some b ∧ ram_at c (pc c + 3) = Some d ∧
    fetch c = Ok (IR, a, b, d) (fetched c).
Proof.
  intros Hc. split; [by apply cycle_reads|].
  destruct (fetch c) as [[[[IR a] b] d] c1|e c1] eqn:Hf.
  - exists IR, a, b, d. apply fetch_Ok in Hf as Hf'.
    destruct Hf' as (-> & ? & ? & ? & ?). done.
  - unfold cycle in Hc. rewrite Hf in Hc. by destruct Hc.
Qed.

Lemma cycle_reads_opcode_and_three_operands_witness :
  ram_reads (with_pc 1 (fetched init)) = [0; 1; 2; 3] ∧
  ∃ IR a b d,
    ram_at init 0 = Some IR ∧ ram_at init 1 = Some a ∧
    ram_at init 2 = Some b ∧ ram_at init 3 = Some d ∧
    fetch init = Ok (IR, a, b, d) (fetched init).
Proof.
  apply (cycle_reads_opcode_and_three_operands init (with_pc 1 (fetched init))).
  left. reflexivity.
Defined.

(** The third operand is not idle: it is the immediate of ADDI, so two
    memories that differ only at [pc + 3] give different registers. *)
Example ADDI_uses_third_operand :
  (∃ c', cycle (loaded [ADDI; 0; 0; 1]) = Next c' ∧ reg_at c' 0 = Some 1 ∧ pc c' = 4) ∧
  (∃ c', cycle (loaded [ADDI; 0; 0; 2]) = Next c' ∧ reg_at c' 0 = Some 2 ∧ pc c' = 4).
Proof. split; eexists; (split; [reflexivity|done]). Qed.

(** The reads sit outside the [try]: with the program counter at 252 the
    fourth read is out of range and [run] dies of an IndexError, whatever
    the opcode. *)
Example fetch_past_the_end :
  cycle (with_pc 252 init)
  = Uncaught IndexError
      (with_read 255 (with_read 254 (with_read 253 (with_read 252 (with_pc 252 init))))).
Proof. reflexivity. Qed.

(** * The stack *)

Lemma bind_Ok {A B} (m : M A) (k : A → M B) c a c' :
  m c = Ok a c' → bind m k c = k a c'.
Proof. unfold bind. by intros ->. Qed.

Lemma bind_Raise {A B} (m : M A) (k : A → M B) c e c' :
  m c = Raise e c' → bind m k c = Raise e c'.
Proof. unfold bind. by intros ->. Qed.

Lemma sp_index (l : list Z) :
  length l = 8%nat → py_index (length l) stack_pointer = Some 7%nat.
Proof. by intros ->. Qed.

Lemma wf_sp c : wf c → ∃ sp, reg c !! 7%nat = Some sp.
Proof.
  intros (Hlen & _). apply lookup_lt_is_Some. rewrite Hlen. lia.
Qed.

Lemma reg_at_sp c sp :
  length (reg c) = 8%nat → reg_at c stack_pointer = Some sp ↔ reg c !! 7%nat = Some sp.
Proof. intros Hlen. unfold reg_at. by rewrite (py_get_Some _ _ _ (sp_index _ Hlen)). Qed.

Section Stack.
Implicit Types (c : CPU) (r b d sp v : Z) (kr ka : nat).

(** PUSH: the stack pointer goes down by one, then the register (read
    after the decrement) is stored where it points. *)
Lemma handle_PUSH_Ok c r b d kr ka sp :
  length (reg c) = 8%nat → reg c !! 7%nat = Some sp →
  py_index 8 r = Some kr → py_index (length (ram c)) (sp - 1) = Some ka →
  ∃ v, <[7%nat := sp - 1]> (reg c) !! kr = Some v ∧
       handle_PUSH r b d c
       = Ok () (with_ram (<[ka := v]> (ram c))
                  (with_reg (<[7%nat := sp - 1]> (reg c)) c)).
Proof.
  intros Hlen Hsp Hr Ha.
  destruct (lookup_lt_is_Some_2 (<[7%nat := sp - 1]> (reg c)) kr) as [v Hv].
  { rewrite length_insert, Hlen. eauto using py_index_lt. }
  exists v. split; [done|]. unfold handle_PUSH.
  rewrite (bind_Ok _ _ _ _ _ (get_reg_ok c _ _ _ (sp_index _ Hlen) Hsp)).
  rewrite (bind_Ok _ _ _ _ _ (set_reg_ok c _ _ (sp - 1) (sp_index _ Hlen))).
  set (c1 := with_reg _ c).
  assert (length (reg c1) = 8%nat) as Hlen1
    by (subst c1; simpl; by rewrite length_insert).
  rewrite (bind_Ok _ _ c1 v c1).
  2:{ apply (get_reg_ok c1 r kr); [by rewrite Hlen1|done]. }
  rewrite (bind_Ok _ _ c1 (sp - 1) c1).
  2:{ apply (get_reg_ok c1 _ _ _ (sp_index _ Hlen1)). subst c1. simpl.
      apply list_lookup_insert_eq. lia. }
  by rewrite (set_ram_ok c1 _ ka).
Qed.

(** POP: the cell under the stack pointer goes to the register, then the
    stack pointer (read after that store) goes up by one. *)
Lemma handle_POP_Ok c r b d kr ka sp v :
  length (reg c) = 8%nat → reg c !! 7%nat = Some sp →
  py_index 8 r = Some kr → py_index (length (ram c)) sp = Some ka →
  ram c !! ka = Some v →
  ∃ sp', <[kr := v]> (reg c) !! 7%nat = Some sp' ∧
         handle_POP r b d c
         = Ok () (with_reg (<[7%nat := sp' + 1]> (<[kr := v]> (reg c))) c).
Proof.
  intros Hlen Hsp Hr Ha Hv.
  destruct (lookup_lt_is_Some_2 (<[kr := v]> (reg c)) 7) as [sp' Hsp'].
  { rewrite length_insert, Hlen. lia. }
  exists sp'. split; [done|]. unfold handle_POP.
  rewrite (bind_Ok _ _ _ _ _ (get_reg_ok c _ _ _ (sp_index _ Hlen) Hsp)).
  rewrite (bind_Ok _ _ _ _ _ (get_ram_ok c _ _ _ Ha Hv)).
  rewrite (bind_Ok _ _ _ _ _ (set_reg_ok c r kr v ltac:(by rewrite Hlen))).
  set (c1 := with_reg _ c).
  assert (length (reg c1) = 8%nat) as Hlen1
    by (subst c1; simpl; by rewrite length_insert).
  rewrite (bind_Ok _ _ c1 sp' c1).
  2:{ by apply (get_reg_ok c1 _ _ _ (sp_index _ Hlen1)). }
  by rewrite (set_reg_ok c1 _ 7 _ (sp_index _ Hlen1)).
Qed.
End Stack.

(** C6. PUSH of a register followed at once by POP into the same register
    gives back the register's value and the stack pointer's value; in
    fact the whole register file is as before the PUSH.  The stack cell
    [reg[7] - 1] has to be an index Python accepts for [ram]. *)
Theorem push_pop_restores (c : CPU) (r b d b' d' sp : Z) :
  wf c →
  in_range 8 r →
  reg_at c stack_pointer = Some sp →
  in_range 255 (sp - 1) →
  ∃ c1 c2,
    handle_PUSH r b d c = Ok () c1 ∧
    handle_POP r b' d' c1 = Ok () c2 ∧
    reg_at c2 r = reg_at c r ∧
    reg_at c2 stack_pointer = Some sp ∧
    reg c2 = reg c.
Proof.
  intros (Hlen & Hram & _) [kr Hr]%py_index_in_range Hsp [ka Ha]%py_index_in_range.
  apply (reg_at_sp _ _ Hlen) in Hsp. rewrite <- Hram in Ha.
  destruct (handle_PUSH_Ok c r b d kr ka sp Hlen Hsp Hr Ha) as (v & Hv & Hpush).
  set (c1 := with_ram _ _) in Hpush.
  assert (length (reg c1) = 8%nat) as Hlen1 by (simpl; by rewrite length_insert).
  assert (reg c1 !! 7%nat = Some (sp - 1)) as Hsp1.
  { simpl. apply list_lookup_insert_eq. lia. }
  assert (py_index (length (ram c1)) (sp - 1) = Some ka) as Ha1.
  { simpl. by rewrite length_insert. }
  assert (ram c1 !! ka = Some v) as Hv1.
  { simpl. apply list_lookup_insert_eq. eauto using py_index_lt. }
  destruct (handle_POP_Ok c1 r b' d' kr ka (sp - 1) v Hlen1 Hsp1 Hr Ha1 Hv1)
    as (sp' & Hsp' & Hpop).
  assert (sp' = sp - 1) as ->.
  { simpl in Hsp'. destruct (decide (kr = 7%nat)) as [->|Hne].
    - rewrite list_lookup_insert_eq in Hv by lia.
      rewrite list_lookup_insert_eq in Hsp' by (rewrite length_insert; lia).
      congruence.
    - rewrite list_lookup_insert_ne in Hsp' by done.
      rewrite list_lookup_insert_eq in Hsp' by lia. congruence. }
  assert (<[7%nat := sp - 1 + 1]> (<[kr := v]> (reg c1)) = reg c) as Hreg.
  { simpl. replace (sp - 1 + 1) with sp by lia.
    destruct (decide (kr = 7%nat)) as [->|Hne].
    - rewrite !list_insert_insert_eq. by apply list_insert_id.
    - rewrite list_lookup_insert_ne in Hv by done.
      rewrite list_insert_insert_ne by done.
      rewrite list_insert_insert_eq.
      rewrite (list_insert_id _ 7 sp) by done. by apply list_insert_id. }
  set (c2 := with_reg _ c1) in Hpop.
  assert (reg c2 = reg c) as Hreg2 by done.
  exists c1, c2. split; [done|]. split; [done|].
  unfold reg_at. rewrite Hreg2. split; [done|]. split; [|done].
  by rewrite (py_get_Some _ _ _ (sp_index _ Hlen)).
Qed.

Lemma push_pop_restores_witness :
  ∃ c1 c2,
    handle_PUSH 0 0 0 (with_registers 10 0) = Ok () c1 ∧
    handle_POP 0 0 0 c1 = Ok () c2 ∧
    reg_at c2 0 = reg_at (with_registers 10 0) 0 ∧
    reg_at c2 stack_pointer = Some 0xF4 ∧
    reg c2 = reg (with_registers 10 0).
Proof.
  apply (push_pop_restores (with_registers 10 0) 0 0 0 0 0 0xF4).
  - repeat split; reflexivity.
  - unfold in_range. simpl. lia.
  - reflexivity.
  - unfold in_range. simpl. lia.
Defined.

(** The second scenario of the test list: LDI R0,10 / PUSH R0 / LDI R0,0 /
    POP R0 / PRN R0 / HLT prints 10. *)
Example push_pop_program :
  ∃ c, run 10 (loaded [LDI; 0; 10; PUSH; 0; LDI; 0; 0; POP; 0; PRN; 0; HLT]) = Halted c ∧
       stdout c = ["10"].
Proof. eexists. split; [vm_compute; reflexivity|reflexivity]. Qed.

(** * Subroutines *)

Section Subroutines.
Implicit Types (c : CPU) (r a b d sp v : Z) (kr ka : nat).

Lemma handle_CALL_Ok c r b d kr ka sp :
  length (reg c) = 8%nat → reg c !! 7%nat = Some sp →
  py_index 8 r = Some kr → py_index (length (ram c)) (sp - 1) = Some ka →
  ∃ dest, <[7%nat := sp - 1]> (reg c) !! kr = Some dest ∧
          handle_CALL r b d c
          = Ok () (with_pc dest
                     (with_ram (<[ka := pc c + 2]> (ram c))
                        (with_reg (<[7%nat := sp - 1]> (reg c)) c))).
Proof.
  intros Hlen Hsp Hr Ha.
  destruct (lookup_lt_is_Some_2 (<[7%nat := sp - 1]> (reg c)) kr) as [dest Hdest].
  { rewrite length_insert, Hlen. eauto using py_index_lt. }
  exists dest. split; [done|]. unfold handle_CALL.
  rewrite (bind_Ok _ _ c (pc c) c) by done. cbv zeta.
  rewrite (bind_Ok _ _ _ _ _ (get_reg_ok c _ _ _ (sp_index _ Hlen) Hsp)).
  rewrite (bind_Ok _ _ _ _ _ (set_reg_ok c _ _ (sp - 1) (sp_index _ Hlen))).
  set (c1 := with_reg _ c).
  assert (length (reg c1) = 8%nat) as Hlen1
    by (subst c1; simpl; by rewrite length_insert).
  rewrite (bind_Ok _ _ c1 (sp - 1) c1).
  2:{ apply (get_reg_ok c1 _ _ _ (sp_index _ Hlen1)). subst c1. simpl.
      apply list_lookup_insert_eq. lia. }
  rewrite (bind_Ok _ _ _ _ _ (set_ram_ok c1 _ ka (pc c + 2) Ha)).
  set (c2 := with_ram _ c1).
  rewrite (bind_Ok _ _ c2 dest c2); [done|].
  apply (get_reg_ok c2 r kr); [|done].
  change (reg c2) with (reg c1). by rewrite Hlen1.
Qed.

Lemma handle_RET_Ok c a b d ka sp v :
  length (reg c) = 8%nat → reg c !! 7%nat = Some sp →
  py_index (length (ram c)) sp = Some ka → ram c !! ka = Some v →
  handle_RET a b d c
  = Ok () (with_pc v (with_reg (<[7%nat := sp + 1]> (<[0%nat := v]> (reg c))) c)).
Proof.
  intros Hlen Hsp Ha Hv. unfold handle_RET. cbv zeta.
  destruct (handle_POP_Ok c 0 b d 0 ka sp v Hlen Hsp eq_refl Ha Hv)
    as (sp' & Hsp' & Hpop).
  rewrite list_lookup_insert_ne in Hsp' by done.
  assert (sp' = sp) as -> by congruence.
  rewrite (bind_Ok _ _ _ _ _ Hpop).
  set (c1 := with_reg _ c).
  rewrite (bind_Ok _ _ c1 v c1); [done|].
  apply (get_reg_ok c1 0 0).
  - subst c1. simpl. by rewrite !length_insert, Hlen.
  - subst c1. simpl. rewrite list_lookup_insert_ne by done.
    apply list_lookup_insert_eq. lia.
Qed.
End Subroutines.

(** C7. CALL stores [pc + 2], the address of the instruction after the
    two-byte CALL, under the decremented stack pointer and jumps to the
    register's value.  A RET executed in any later machine whose stack
    pointer and whose cell at that address are those CALL left puts that
    address back into [pc]. *)
Theorem call_ret_round_trip (c : CPU) (r b d a' b' d' sp : Z) :
  wf c →
  in_range 8 r →
  reg_at c stack_pointer = Some sp →
  in_range 255 (sp - 1) →
  ∃ c1,
    handle_CALL r b d c = Ok () c1 ∧
    reg_at c1 r = Some (pc c1) ∧
    reg_at c1 stack_pointer = Some (sp - 1) ∧
    ram_at c1 (sp - 1) = Some (pc c + inst_len CALL) ∧
    ∀ c2, wf c2 →
          reg_at c2 stack_pointer = reg_at c1 stack_pointer →
          ram_at c2 (sp - 1) = ram_at c1 (sp - 1) →
          ∃ c3, handle_RET a' b' d' c2 = Ok () c3 ∧
                pc c3 = pc c + inst_len CALL.
Proof.
  intros (Hlen & Hram & _) [kr Hr]%py_index_in_range Hsp [ka Ha]%py_index_in_range.
  apply (reg_at_sp _ _ Hlen) in Hsp. rewrite <- Hram in Ha.
  destruct (handle_CALL_Ok c r b d kr ka sp Hlen Hsp Hr Ha) as (dest & Hdest & Hcall).
  set (c1 := with_pc _ _) in Hcall.
  assert (length (reg c1) = 8%nat) as Hlen1 by (simpl; by rewrite length_insert).
  assert (reg_at c1 stack_pointer = Some (sp - 1)) as Hsp1.
  { apply (reg_at_sp _ _ Hlen1). simpl. apply list_lookup_insert_eq. lia. }
  assert (ram_at c1 (sp - 1) = Some (pc c + 2)) as Hret.
  { unfold ram_at. simpl. by apply py_get_insert_eq. }
  exists c1. split; [done|]. split.
  { unfold reg_at. simpl. rewrite (py_get_Some _ _ kr); [done|].
    by rewrite length_insert, Hlen. }
  split; [done|]. split; [done|].
  intros c2 (Hlen2 & Hram2 & _) Hsp2 Hcell2.
  rewrite Hsp1 in Hsp2. apply (reg_at_sp _ _ Hlen2) in Hsp2.
  rewrite Hret in Hcell2. apply py_get_inv in Hcell2 as (ka2 & Ha2 & Hv2).
  eexists. split; [by apply (handle_RET_Ok c2 a' b' d' ka2 (sp - 1) (pc c + 2))|].
  done.
Qed.

Lemma call_ret_round_trip_witness :
  ∃ c1,
    handle_CALL 1 0 0 (with_pc 8 (with_registers 0 40)) = Ok () c1 ∧
    reg_at c1 1 = Some (pc c1) ∧
    reg_at c1 stack_pointer = Some (0xF4 - 1) ∧
    ram_at c1 (0xF4 - 1) = Some (pc (with_pc 8 (with_registers 0 40)) + inst_len CALL) ∧
    ∀ c2, wf c2 →
          reg_at c2 stack_pointer = reg_at c1 stack_pointer →
          ram_at c2 (0xF4 - 1) = ram_at c1 (0xF4 - 1) →
          ∃ c3, handle_RET 0 0 0 c2 = Ok () c3 ∧
                pc c3 = pc (with_pc 8 (with_registers 0 40)) + inst_len CALL.
Proof.
  apply (call_ret_round_trip (with_pc 8 (with_registers 0 40)) 1 0 0 0 0 0 0xF4).
  - repeat split; reflexivity.
  - unfold in_range. simpl. lia.
  - reflexivity.
  - unfold in_range. simpl. lia.
Defined.

(** A subroutine at address 8 that prints R0 and returns; the caller then
    halts at the instruction after its CALL. *)
Example call_ret_program :
  ∃ c, run 10 (loaded [LDI; 0; 7; LDI; 1; 11; CALL; 1; HLT; 0; 0; PRN; 0; RET]) = Halted c ∧
       stdout c = ["7"] ∧ pc c = 9.
Proof. eexists. split; [vm_compute; reflexivity|done]. Qed.

(** C9. RET pops through register 0: when it returns, register 0 and the
    program counter both hold the cell that was under the stack pointer,
    so register 0 is overwritten unless it already held that value. *)
Theorem ret_overwrites_register_0 (c : CPU) (a b d sp : Z) :
  wf c →
  reg_at c stack_pointer = Some sp →
  in_range 255 sp →
  ∃ c' v,
    ram_at c sp = Some v ∧
    handle_RET a b d c = Ok () c' ∧
    reg_at c' 0 = Some (pc c') ∧
    pc c' = v ∧
    (reg_at c 0 ≠ Some v → reg_at c' 0 ≠ reg_at c 0).
Proof.
  intros (Hlen & Hram & _) Hsp Hin.
  apply (reg_at_sp _ _ Hlen) in Hsp. rewrite <- Hram in Hin.
  apply py_get_is_Some in Hin as [v Hv].
  destruct (py_get_inv _ _ _ Hv) as (ka & Ha & Hcell).
  pose proof (handle_RET_Ok c a b d ka sp v Hlen Hsp Ha Hcell) as Hret.
  set (c' := with_pc _ _) in Hret.
  assert (reg_at c' 0 = Some v) as H0.
  { unfold reg_at. simpl. rewrite (py_get_Some _ _ 0%nat).
    - rewrite list_lookup_insert_ne by done.
      apply list_lookup_insert_eq. lia.
    - by rewrite !length_insert, Hlen. }
  exists c', v. split; [done|]. split; [done|]. split; [done|]. split; [done|].
  intros Hne. by rewrite H0.
Qed.

Lemma ret_overwrites_register_0_witness :
  reg_at returning 0 = Some 9 ∧
  ∃ c' v,
    ram_at returning 0xF4 = Some v ∧
    handle_RET 0 0 0 returning = Ok () c' ∧
    reg_at c' 0 = Some (pc c') ∧
    pc c' = v ∧
    (reg_at returning 0 ≠ Some v → reg_at c' 0 ≠ reg_at returning 0).
Proof.
  split; [reflexivity|].
  apply (ret_overwrites_register_0 returning 0 0 0 0xF4).
  - repeat split; reflexivity.
  - reflexivity.
  - unfold in_range. simpl. lia.
Defined.

Example ret_changes_register_0 :
  ∃ c', handle_RET 0 0 0 returning = Ok () c' ∧
        reg c' = [42; 0; 0; 0; 0; 0; 0; 0xF5] ∧ pc c' = 42.
Proof. eexists. split; [vm_compute; reflexivity|done]. Qed.

(** * The ALU *)

Section ALU.
Implicit Types (c : CPU) (a b d x y : Z) (ka : nat).

(** The three shapes of ALU operation: combine two registers, rewrite
    one register, shift one register by itself. *)
Lemma binary_op_Ok c a b x y (f : Z → Z → Z) :
  reg_at c a = Some x → reg_at c b = Some y →
  ∃ ka, py_index (length (reg c)) a = Some ka ∧
        (u <~ get_reg a ;; v <~ get_reg b ;; set_reg a (f u v)) c
        = Ok () (with_reg (<[ka := f x y]> (reg c)) c).
Proof.
  intros Ha Hb. destruct (py_get_inv _ _ _ Ha) as (ka & Hka & _).
  exists ka. split; [done|].
  rewrite (bind_Ok _ _ _ _ _ (get_reg_at _ _ _ Ha)).
  rewrite (bind_Ok _ _ _ _ _ (get_reg_at _ _ _ Hb)).
  by apply set_reg_ok.
Qed.

Lemma shift_op_Ok c a x (sh : Z → Z → M Z) v :
  reg_at c a = Some x → sh x x c = Ok v c →
  ∃ ka, py_index (length (reg c)) a = Some ka ∧
        (u <~ get_reg a ;; n <~ get_reg a ;; w <~ sh u n ;; set_reg a w) c
        = Ok () (with_reg (<[ka := v]> (reg c)) c).
Proof.
  intros Ha Hsh. destruct (py_get_inv _ _ _ Ha) as (ka & Hka & _).
  exists ka. split; [done|].
  rewrite (bind_Ok _ _ _ _ _ (get_reg_at _ _ _ Ha)).
  rewrite (bind_Ok _ _ _ _ _ (get_reg_at _ _ _ Ha)).
  rewrite (bind_Ok _ _ _ _ _ Hsh).
  by apply set_reg_ok.
Qed.

Lemma handle_MOD_zero c a b d :
  reg_at c b = Some 0 →
  handle_MOD a b d c = Raise SystemExit (with_print "Error: Divide by Zero" c).
Proof.
  intros Hb. unfold handle_MOD, alu. simpl.
  by rewrite (bind_Ok _ _ _ _ _ (get_reg_at _ _ _ Hb)).
Qed.

Lemma handle_MOD_nonzero c a b d x y :
  reg_at c a = Some x → reg_at c b = Some y → y ≠ 0 →
  ∃ ka, py_index (length (reg c)) a = Some ka ∧
        handle_MOD a b d c = Ok () (with_reg (<[ka := x `mod` y]> (reg c)) c).
Proof.
  intros Ha Hb Hy. unfold handle_MOD, alu. simpl.
  rewrite (bind_Ok _ _ _ _ _ (get_reg_at _ _ _ Hb)).
  rewrite bool_decide_eq_false_2 by done.
  rewrite (bind_Ok _ _ c () c) by done.
  by apply (binary_op_Ok c a b x y Z.modulo).
Qed.

(** CMP writes a single 1 into the flag vector and clears nothing. *)
Lemma handle_CMP_Ok c a b d x y :
  length (flags c) = 8%nat → reg_at c a = Some x → reg_at c b = Some y →
  handle_CMP a b d c
  = Ok () (with_flags
             (<[(if bool_decide (x = y) then 7%nat else
                 if bool_decide (x < y) then 5%nat else 6%nat) := 1]> (flags c)) c).
Proof.
  intros Hlen Ha Hb. unfold handle_CMP, alu. simpl.
  rewrite (bind_Ok _ _ _ _ _ (get_reg_at _ _ _ Ha)).
  rewrite (bind_Ok _ _ _ _ _ (get_reg_at _ _ _ Hb)).
  repeat case_bool_decide; try lia;
    by apply set_flag_ok; rewrite Hlen.
Qed.
End ALU.

(** C4. A cycle executing MOD on valid registers: when the divisor
    register holds 0 the machine prints [Error: Divide by Zero] and the
    process exits (the [sys.exit()] passes through the [except] clause of
    the loop, which adds its own line before exiting), with the register
    file untouched; otherwise the first register receives the remainder
    and the loop goes on with the next instruction. *)
Theorem MOD_by_zero_exits_else_remainder (c c1 : CPU) (a b d x y : Z) :
  running c = true →
  fetch c = Ok (MOD, a, b, d) c1 →
  reg_at c a = Some x →
  reg_at c b = Some y →
  (y = 0 →
   ∃ c', cycle c = Exited c' ∧
         (∀ fuel, loop (S fuel) c = ProcessExit c') ∧
         stdout c' = stdout c ++ ["Error: Divide by Zero";
                                  "Invalid instruction 0b10100100"] ∧
         reg c' = reg c) ∧
  (y ≠ 0 →
   ∃ c', cycle c = Next c' ∧
         reg_at c' a = Some (x `mod` y) ∧
         running c' = true ∧
         stdout c' = stdout c ∧
         pc c' = pc c + 3).
Proof.
  intros Hrun Hf Ha Hb.
  assert (c1 = fetched c) as -> by (by apply fetch_Ok in Hf as (-> & _)).
  assert (branchtable !! MOD = Some handle_MOD) as Htab by reflexivity.
  split.
  - intros ->.
    pose proof (handle_MOD_zero (fetched c) a b d Hb) as Hh.
    pose proof (cycle_raise _ _ _ _ _ _ _ _ _ Hf Htab Hh) as Hc.
    eexists. split; [exact Hc|]. split.
    { intros fuel. by rewrite (loop_step _ _ Hrun), Hc. }
    split; [|done]. simpl. by rewrite <- (assoc_L (++)).
  - intros Hy.
    destruct (handle_MOD_nonzero (fetched c) a b d x y Ha Hb Hy) as (ka & Hka & Hh).
    pose proof (cycle_return _ _ _ _ _ _ _ _ Hf Htab Hh) as Hc.
    rewrite bool_decide_eq_false_2 in Hc.
    2:{ unfold control_flow. intros Hin.
        repeat (apply elem_of_cons in Hin as [Hin|Hin]; [by vm_compute in Hin|]).
        by apply elem_of_nil in Hin. }
    eexists. split; [exact Hc|]. split.
    { unfold reg_at. simpl. by apply py_get_insert_eq. }
    done.
Qed.

Lemma MOD_by_zero_exits_else_remainder_witness :
  (0 = 0 →
   ∃ c', cycle (started [MOD; 0; 1]) = Exited c' ∧
         (∀ fuel, loop (S fuel) (started [MOD; 0; 1])
                  = ProcessExit c') ∧
         stdout c' = stdout (started [MOD; 0; 1])
                     ++ ["Error: Divide by Zero"; "Invalid instruction 0b10100100"] ∧
         reg c' = reg (started [MOD; 0; 1])) ∧
  (0 ≠ 0 →
   ∃ c', cycle (started [MOD; 0; 1]) = Next c' ∧
         reg_at c' 0 = Some (0 `mod` 0) ∧
         running c' = true ∧
         stdout c' = stdout (started [MOD; 0; 1]) ∧
         pc c' = pc (started [MOD; 0; 1]) + 3).
Proof.
  apply (MOD_by_zero_exits_else_remainder
           (started [MOD; 0; 1])
           (fetched (started [MOD; 0; 1])) 0 1 0 0 0);
    reflexivity.
Defined.

(** The last scenario of the test list: LDI R0,5 / LDI R1,0 / MOD R0,R1 /
    HLT stops at the MOD. *)
Example MOD_by_zero_program :
  ∃ c, run 10 (loaded [LDI; 0; 5; LDI; 1; 0; MOD; 0; 1; HLT]) = ProcessExit c ∧
       stdout c = ["Error: Divide by Zero"; "Invalid instruction 0b10100100"] ∧
       reg c = [5; 0; 0; 0; 0; 0; 0; 0xF4] ∧ pc c = 6.
Proof. eexists. split; [vm_compute; reflexivity|done]. Qed.

Example MOD_program :
  ∃ c, run 10 (loaded [LDI; 0; 17; LDI; 1; 5; MOD; 0; 1; PRN; 0; HLT]) = Halted c ∧
       stdout c = ["2"].
Proof. eexists. split; [vm_compute; reflexivity|done]. Qed.

(** C2. CMP sets a flag and never clears one: after CMP R0,R1 with
    R0 < R1 has set the less-than flag, CMP R0,R0 sets the equal flag and
    the less-than flag is still set, so two of the three flags are set. *)
Theorem CMP_leaves_two_flags_set :
  ∃ c, run 10 (loaded [LDI; 1; 1; CMP; 0; 1; CMP; 0; 0; HLT]) = Halted c ∧
       flag_at c flag_equal = Some 1 ∧
       flag_at c flag_lt = Some 1 ∧
       flag_at c flag_gt = Some 0.
Proof. eexists. split; [vm_compute; reflexivity|done]. Qed.

(** The same at the level of the handler: CMP of a register with itself
    on a machine whose less-than flag is set. *)
Example CMP_same_register_keeps_lt :
  handle_CMP 0 0 0 (with_flags [0; 0; 0; 0; 0; 1; 0; 0] init)
  = Ok () (with_flags [0; 0; 0; 0; 0; 1; 0; 1] init).
Proof. reflexivity. Qed.

(** From cleared flags, a CMP sets exactly the flag of the ordering. *)
Lemma CMP_from_cleared_flags c a b d x y :
  flags c = replicate 8 0 → reg_at c a = Some x → reg_at c b = Some y →
  ∃ c', handle_CMP a b d c = Ok () c' ∧
        flag_at c' flag_equal = Some (if bool_decide (x = y) then 1 else 0) ∧
        flag_at c' flag_lt = Some (if bool_decide (x < y) then 1 else 0) ∧
        flag_at c' flag_gt = Some (if bool_decide (x > y) then 1 else 0).
Proof.
  intros Hfl Ha Hb.
  rewrite (handle_CMP_Ok c a b d x y) by (by rewrite ?Hfl).
  eexists. split; [done|]. unfold flag_at. simpl. rewrite Hfl.
  repeat case_bool_decide; try lia; done.
Qed.

(** C3, as stated, fails: ADD of registers holding 200 and 100 leaves 300
    in the register, outside 0..255. *)
Lemma ADD_result_exceeds_8_bits :
  Forall (λ v, 0 ≤ v ≤ 255) (reg (with_registers 200 100)) ∧
  handle_ADD 0 1 0 (with_registers 200 100)
  = Ok () (with_registers 300 100) ∧
  ¬ Forall (λ v, 0 ≤ v ≤ 255) (reg (with_registers 300 100)).
Proof.
  split; [|split; [reflexivity|]].
  - simpl. repeat constructor; lia.
  - simpl. intros H. apply Forall_cons in H as [H _]. lia.
Qed.

(** C3, amended.  With valid register indices, ADD, MUL, MOD (non-zero
    divisor) and ADDI write the exact integer result, with no reduction
    modulo 256: the sum, the product, the remainder, and source plus
    immediate; a register can therefore leave 0..255. *)
Theorem alu_results_exact (c : CPU) (a b d x y : Z) :
  reg_at c a = Some x →
  reg_at c b = Some y →
  ∃ ka, py_index (length (reg c)) a = Some ka ∧
    (∀ v, reg_at (with_reg (<[ka := v]> (reg c)) c) a = Some v) ∧
    handle_ADD a b d c = Ok () (with_reg (<[ka := x + y]> (reg c)) c) ∧
    handle_MUL a b d c = Ok () (with_reg (<[ka := x * y]> (reg c)) c) ∧
    (y ≠ 0 →
     handle_MOD a b d c = Ok () (with_reg (<[ka := x `mod` y]> (reg c)) c)) ∧
    handle_ADDI a b d c = Ok () (with_reg (<[ka := y + d]> (reg c)) c).
Proof.
  intros Ha Hb. destruct (py_get_inv _ _ _ Ha) as (ka & Hka & _).
  assert (∀ ka', py_index (length (reg c)) a = Some ka' → ka' = ka) as Huniq
    by (intros; congruence).
  exists ka. split; [done|]. split.
  { intros v. unfold reg_at. simpl. by apply py_get_insert_eq. }
  repeat split.
  - destruct (binary_op_Ok c a b x y Z.add Ha Hb) as (k & Hk & Heq).
    rewrite (Huniq _ Hk) in Heq. exact Heq.
  - destruct (binary_op_Ok c a b x y Z.mul Ha Hb) as (k & Hk & Heq).
    rewrite (Huniq _ Hk) in Heq. exact Heq.
  - intros Hy. destruct (handle_MOD_nonzero c a b d x y Ha Hb Hy) as (k & Hk & Heq).
    rewrite (Huniq _ Hk) in Heq. exact Heq.
  - unfold handle_ADDI.
    rewrite (bind_Ok _ _ _ _ _ (get_reg_at _ _ _ Hb)).
    by apply set_reg_ok.
Qed.

Lemma alu_results_exact_witness :
  ∃ ka, py_index (length (reg (with_registers 200 100))) 0
        = Some ka ∧
    handle_ADD 0 1 7 (with_registers 200 100)
    = Ok () (with_reg (<[ka := 200 + 100]> (reg (with_registers 200 100)))
               (with_registers 200 100)) ∧
    handle_MUL 0 1 7 (with_registers 200 100)
    = Ok () (with_reg (<[ka := 200 * 100]> (reg (with_registers 200 100)))
               (with_registers 200 100)) ∧
    handle_ADDI 0 1 7 (with_registers 200 100)
    = Ok () (with_reg (<[ka := 100 + 7]> (reg (with_registers 200 100)))
               (with_registers 200 100)).
Proof.
  destruct (alu_results_exact (with_registers 200 100) 0 1 7 200 100 eq_refl eq_refl)
    as (ka & Hka & _ & Hadd & Hmul & _ & Haddi).
  exists ka. split; [exact Hka|]. split; [exact Hadd|]. split; [exact Hmul|exact Haddi].
Defined.

(** * Jumps *)

Section Jumps.
Implicit Types (c : CPU) (r b d v f : Z).

Lemma handle_JMP_Ok c r b d v :
  reg_at c r = Some v → handle_JMP r b d c = Ok () (with_pc v c).
Proof.
  intros Hr. unfold handle_JMP.
  by rewrite (bind_Ok _ _ _ _ _ (get_reg_at _ _ _ Hr)).
Qed.

Lemma handle_JEQ_Ok c r b d v f :
  flag_at c flag_equal = Some f → reg_at c r = Some v →
  handle_JEQ r b d c
  = Ok () (with_pc (if bool_decide (f = 1) then v else pc c + 2) c).
Proof.
  intros Hf Hr. unfold handle_JEQ.
  rewrite (bind_Ok _ _ _ _ _ (get_flag_at _ _ _ Hf)).
  case_bool_decide; [by apply handle_JMP_Ok|done].
Qed.

Lemma handle_JNE_Ok c r b d v f :
  flag_at c flag_equal = Some f → reg_at c r = Some v →
  handle_JNE r b d c
  = Ok () (with_pc (if bool_decide (f = 0) then v else pc c + 2) c).
Proof.
  intros Hf Hr. unfold handle_JNE.
  rewrite (bind_Ok _ _ _ _ _ (get_flag_at _ _ _ Hf)).
  case_bool_decide; [by apply handle_JMP_Ok|done].
Qed.

(** With the flag at 0 or 1, as CMP leaves it, exactly one of JEQ and
    JNE jumps. *)
Lemma JEQ_JNE_exclusive c r b d v f :
  flag_at c flag_equal = Some f → reg_at c r = Some v → f = 0 ∨ f = 1 →
  v ≠ pc c + 2 →
  (handle_JEQ r b d c = Ok () (with_pc v c) ∧
   handle_JNE r b d c = Ok () (with_pc (pc c + 2) c)) ∨
  (handle_JEQ r b d c = Ok () (with_pc (pc c + 2) c) ∧
   handle_JNE r b d c = Ok () (with_pc v c)).
Proof.
  intros Hf Hr Hbit _.
  rewrite (handle_JEQ_Ok c r b d v f Hf Hr), (handle_JNE_Ok c r b d v f Hf Hr).
  destruct Hbit as [-> | ->]; [right|left]; done.
Qed.
End Jumps.

(** The first scenario of the test list: LDI R0,5 / LDI R1,3 / ADD R0,R1 /
    PRN R0 / HLT prints 8. *)
Example add_program :
  ∃ c, run 10 (loaded [LDI; 0; 5; LDI; 1; 3; ADD; 0; 1; PRN; 0; HLT]) = Halted c ∧
       stdout c = ["8"].
Proof. eexists. split; [vm_compute; reflexivity|done]. Qed.


(** * What a cycle leaves alone *)

Create HintDb frame discriminated.

Section Frame.
Context {B : Type} (f : CPU → B).

Lemma frame_get_reg i : keeps f (get_reg i).
Proof. intros c. unfold get_reg, of_option, ret, raise. by destruct (py_get _ _). Qed.

Lemma frame_get_ram i : keeps f (get_ram i).
Proof. intros c. unfold get_ram, of_option, ret, raise. by destruct (py_get _ _). Qed.

Lemma frame_get_flag i : keeps f (get_flag i).
Proof. intros c. unfold get_flag, of_option, ret, raise. by destruct (py_get _ _). Qed.

Lemma frame_get_pc : keeps f get_pc.
Proof. by intros c. Qed.

Lemma frame_sys_exit : keeps f sys_exit.
Proof. by intros c. Qed.

Lemma frame_set_reg i v :
  (∀ l c, f (with_reg l c) = f c) → keeps f (set_reg i v).
Proof. intros H c. unfold set_reg. destruct (py_set _ _ _); [apply H|done]. Qed.

Lemma frame_set_ram i v :
  (∀ l c, f (with_ram l c) = f c) → keeps f (set_ram i v).
Proof. intros H c. unfold set_ram. destruct (py_set _ _ _); [apply H|done]. Qed.

Lemma frame_set_flag i v :
  (∀ l c, f (with_flags l c) = f c) → keeps f (set_flag i v).
Proof. intros H c. unfold set_flag. destruct (py_set _ _ _); [apply H|done]. Qed.

Lemma frame_set_pc p : (∀ q c, f (with_pc q c) = f c) → keeps f (set_pc p).
Proof. intros H c. apply H. Qed.

Lemma frame_set_running b :
  (∀ b' c, f (with_running b' c) = f c) → keeps f (set_running b).
Proof. intros H c. apply H. Qed.

Lemma frame_print line :
  (∀ s c, f (with_print s c) = f c) → keeps f (print line).
Proof. intros H c. apply H. Qed.

Lemma frame_ram_read i :
  (∀ a c, f (with_read a c) = f c) → keeps f (ram_read i).
Proof.
  intros H c. unfold ram_read.
  pose proof (frame_get_ram i (with_read i c)) as Hk.
  destruct (get_ram i (with_read i c)); by rewrite Hk.
Qed.

Lemma frame_py_shl x n : keeps f (py_shl x n).
Proof. apply keeps_py_shl. Qed.

Lemma frame_py_shr x n : keeps f (py_shr x n).
Proof. apply keeps_py_shr. Qed.

Lemma frame_int_base2 s : keeps f (int_base2 s).
Proof. intros c. unfold int_base2. by destruct (all_binary s). Qed.
End Frame.

#[local] Hint Resolve keeps_ret keeps_raise keeps_of_option frame_get_reg
  frame_get_ram frame_get_flag frame_get_pc frame_sys_exit frame_py_shl
  frame_py_shr frame_int_base2 : frame.
#[local] Hint Extern 2 (keeps _ (bind _ _)) => apply keeps_bind; [|intros] : frame.
#[local] Hint Extern 2 (keeps _ (if _ then _ else _)) => apply keeps_if : frame.
#[local] Hint Extern 1 (keeps _ (set_reg _ _)) =>
  apply frame_set_reg; solve [reflexivity | assumption] : frame.
#[local] Hint Extern 1 (keeps _ (set_ram _ _)) =>
  apply frame_set_ram; solve [reflexivity | assumption] : frame.
#[local] Hint Extern 1 (keeps _ (set_flag _ _)) =>
  apply frame_set_flag; solve [reflexivity | assumption] : frame.
#[local] Hint Extern 1 (keeps _ (set_pc _)) =>
  apply frame_set_pc; solve [reflexivity | assumption] : frame.
#[local] Hint Extern 1 (keeps _ (set_running _)) =>
  apply frame_set_running; solve [reflexivity | assumption] : frame.
#[local] Hint Extern 1 (keeps _ (print _)) =>
  apply frame_print; solve [reflexivity | assumption] : frame.
#[local] Hint Extern 1 (keeps _ (ram_read _)) =>
  apply frame_ram_read; solve [reflexivity | assumption] : frame.

(** The lengths of the three lists. *)
Lemma set_reg_keeps_length i v : keeps (λ c, length (reg c)) (set_reg i v).
Proof.
  intros c. unfold set_reg, py_set.
  destruct (py_index (length (reg c)) i); simpl; [apply length_insert|done].
Qed.

Lemma set_ram_keeps_length i v : keeps (λ c, length (ram c)) (set_ram i v).
Proof.
  intros c. unfold set_ram, py_set.
  destruct (py_index (length (ram c)) i); simpl; [apply length_insert|done].
Qed.

Lemma set_flag_keeps_length i v : keeps (λ c, length (flags c)) (set_flag i v).
Proof.
  intros c. unfold set_flag, py_set.
  destruct (py_index (length (flags c)) i); simpl; [apply length_insert|done].
Qed.

#[local] Hint Resolve set_reg_keeps_length set_ram_keeps_length
  set_flag_keeps_length : frame.

(** Unfold a handler down to the primitives, picking the ALU branch. *)
Ltac open_handler :=
  cbv beta delta [handle_ADD handle_SUB handle_HLT handle_LDI handle_PRN
    handle_MUL handle_DIV handle_MOD handle_INC handle_DEC handle_CMP
    handle_AND handle_NOT handle_OR handle_XOR handle_SHL handle_SHR
    handle_NOP handle_LD handle_ST handle_PRA handle_PUSH handle_POP
    handle_CALL handle_RET handle_JMP handle_JEQ handle_JNE handle_ADDI alu];
  cbn [String.eqb Ascii.eqb Bool.eqb]; cbv zeta.

Ltac not_in_list H :=
  exfalso; apply H; in_list.

Section HandlerFrames.
Implicit Types (IR a b d : Z) (h : handler).

(** No handler resizes a list. *)
Lemma handler_keeps_lengths IR h a b d :
  branchtable !! IR = Some h →
  keeps (λ c, length (reg c)) (h a b d) ∧
  keeps (λ c, length (ram c)) (h a b d) ∧
  keeps (λ c, length (flags c)) (h a b d).
Proof.
  intros H%branchtable_entries.
  each_entry H; open_handler; (split; [|split]); auto 40 with frame.
Qed.

(** Only CMP writes the flags. *)
Lemma handler_keeps_flags IR h a b d :
  branchtable !! IR = Some h → IR ≠ CMP → keeps flags (h a b d).
Proof.
  intros H%branchtable_entries Hne.
  each_entry H; try done; open_handler; auto 40 with frame.
Qed.

(** Only PUSH and CALL write memory. *)
Lemma handler_keeps_ram IR h a b d :
  branchtable !! IR = Some h → IR ∉ [PUSH; CALL] → keeps ram (h a b d).
Proof.
  intros H%branchtable_entries Hne.
  each_entry H; try (by not_in_list Hne); open_handler; auto 40 with frame.
Qed.
End HandlerFrames.

(** A handler that returns has printed nothing, unless it is PRN: the
    only other [print], in MOD, is followed by [sys.exit()]. *)
Lemma handler_Ok_keeps_stdout (IR : Z) (h : handler) a b d c c' :
  branchtable !! IR = Some h → IR ≠ PRN →
  h a b d c = Ok () c' → stdout c' = stdout c.
Proof.
  intros H%branchtable_entries Hne.
  assert (IR ≠ MOD → keeps stdout (h a b d)) as Hk.
  { intros Hmod. each_entry H; try done; open_handler; auto 40 with frame. }
  destruct (decide (IR = MOD)) as [->|Hmod].
  - clear Hk. each_entry H; try (by vm_compute in H).
    open_handler. unfold bind at 1.
    pose proof (frame_get_reg stdout b c) as Hg.
    destruct (get_reg b c) as [y c1|]; [|done]. rewrite <- Hg.
    unfold bind at 1. case_bool_decide; [done|].
    unfold ret at 1. intros Heq.
    assert (keeps stdout (x <~ get_reg a;; y0 <~ get_reg b;; set_reg a (x `mod` y0)))
      as Hk' by auto 20 with frame.
    specialize (Hk' c1). by rewrite Heq in Hk'.
  - intros Heq. specialize (Hk Hmod c). by rewrite Heq in Hk.
Qed.

Section CycleFrames.
Context {B : Type} (f : CPU → B) (P : Z → Prop).
Hypothesis f_read : ∀ a c, f (with_read a c) = f c.
Hypothesis f_print : ∀ s c, f (with_print s c) = f c.
Hypothesis f_pc : ∀ q c, f (with_pc q c) = f c.
Hypothesis handlers :
  ∀ IR (h : handler) a b d, branchtable !! IR = Some h → P IR → keeps f (h a b d).

Lemma fetch_frame : keeps f fetch.
Proof. unfold fetch. auto 30 with frame. Qed.

(** Whatever way the cycle ends, a projection that the loop's own
    bookkeeping and the dispatched handler leave alone is unchanged. *)
Lemma cycle_frame c :
  (∀ IR, ram_at c (pc c) = Some IR → P IR) →
  f (cycle_state (cycle c)) = f c.
Proof.
  intros HP. unfold cycle. pose proof (fetch_frame c) as Hf.
  destruct (fetch c) as [[[[IR a] b] d] c1|e c1] eqn:Hfetch; [|done].
  apply fetch_Ok in Hfetch as (-> & HIR & _). specialize (HP IR HIR).
  unfold dispatch.
  destruct ((branchtable !! IR) : option handler) as [h|] eqn:Hb.
  - pose proof (handlers IR h a b d Hb HP (fetched c)) as Hh.
    destruct (h a b d (fetched c)) as [[] c2|e c2]; simpl.
    + case_match; simpl; rewrite ?f_pc; congruence.
    + rewrite f_print. congruence.
  - simpl. rewrite f_print. congruence.
Qed.
End CycleFrames.

(** A cycle, however it ends, resizes none of the three lists. *)
Lemma cycle_keeps_wf c : wf c → wf (cycle_state (cycle c)).
Proof.
  intros (Hreg & Hram & Hfl). repeat split.
  - rewrite <- Hreg.
    apply (cycle_frame (λ c, length (reg c)) (λ _, True)); try done.
    intros. by eapply handler_keeps_lengths.
  - rewrite <- Hram.
    apply (cycle_frame (λ c, length (ram c)) (λ _, True)); try done.
    intros. by eapply handler_keeps_lengths.
  - rewrite <- Hfl.
    apply (cycle_frame (λ c, length (flags c)) (λ _, True)); try done.
    intros. by eapply handler_keeps_lengths.
Qed.

(** X1. The three lists keep their sizes through any number of cycles,
    however the run ends. *)
Theorem run_keeps_sizes (fuel : nat) (c : CPU) :
  wf c → wf (run_state (run fuel c)).
Proof.
  intros Hwf. unfold run.
  assert (wf (with_running true c)) as Hwf' by done.
  generalize dependent (with_running true c). clear.
  induction fuel as [|fuel IH]; intros c Hwf; cbn [loop].
  - by destruct (running c).
  - destruct (running c); [|done].
    pose proof (cycle_keeps_wf c Hwf) as Hc.
    destruct (cycle c); simpl in *; auto.
Qed.

Lemma run_keeps_sizes_witness :
  wf (run_state (run 10 (loaded [LDI; 0; 10; PUSH; 0; POP; 1; HLT]))).
Proof.
  apply (run_keeps_sizes 10 (loaded [LDI; 0; 10; PUSH; 0; POP; 1; HLT])).
  repeat split; reflexivity.
Defined.

(** X2. A cycle whose opcode is not CMP leaves the flags as they were,
    however it ends. *)
Theorem flags_written_only_by_CMP (c : CPU) :
  ram_at c (pc c) ≠ Some CMP →
  flags (cycle_state (cycle c)) = flags c.
Proof.
  intros Hne. apply (cycle_frame flags (λ IR, IR ≠ CMP)); try done.
  - intros. by eapply handler_keeps_flags.
  - intros IR HIR ->. done.
Qed.

Lemma flags_written_only_by_CMP_witness :
  flags (cycle_state (cycle (loaded [ADD; 0; 1]))) = flags (loaded [ADD; 0; 1]).
Proof.
  apply (flags_written_only_by_CMP (loaded [ADD; 0; 1])). by vm_compute.
Defined.

(** X3. A cycle whose opcode is neither PUSH nor CALL leaves memory as it
    was, however it ends; in particular ST stores nothing. *)
Theorem ram_written_only_by_PUSH_and_CALL (c : CPU) :
  ram_at c (pc c) ≠ Some PUSH →
  ram_at c (pc c) ≠ Some CALL →
  ram (cycle_state (cycle c)) = ram c.
Proof.
  intros Hpush Hcall.
  apply (cycle_frame ram (λ IR, IR ∉ [PUSH; CALL])); try done.
  - intros. by eapply handler_keeps_ram.
  - intros IR HIR Hin.
    apply elem_of_cons in Hin as [->|Hin]; [done|].
    apply elem_of_cons in Hin as [->|Hin]; [done|].
    by apply elem_of_nil in Hin.
Qed.

Lemma ram_written_only_by_PUSH_and_CALL_witness :
  ram (cycle_state (cycle (loaded [ST; 0; 1]))) = ram (loaded [ST; 0; 1]).
Proof.
  apply (ram_written_only_by_PUSH_and_CALL (loaded [ST; 0; 1])); by vm_compute.
Defined.

(** X4. A cycle that goes back to the loop test has printed nothing unless
    its opcode is PRN, and a PRN cycle has printed exactly the decimal
    form of the register. *)
Theorem only_PRN_prints (c c' : CPU) :
  cycle c = Next c' →
  (ram_at c (pc c) ≠ Some PRN → stdout c' = stdout c) ∧
  (ram_at c (pc c) = Some PRN →
   ∃ r v, ram_at c (pc c + 1) = Some r ∧ reg_at c r = Some v ∧
          stdout c' = stdout c ++ [pretty v]).
Proof.
  intros (IR & a & b & d & h & c2 & Hf & Hb & Hh & ->)%cycle_Next_inv.
  apply fetch_Ok in Hf as (_ & HIR & Ha & _).
  assert (∀ c3, stdout (if bool_decide (IR ∈ control_flow) then c3
                        else with_pc (pc c3 + inst_len IR) c3) = stdout c3) as Hpc
    by (intros; by case_bool_decide).
  rewrite Hpc. split.
  - intros Hne.
    rewrite (handler_Ok_keeps_stdout IR h a b d (fetched c) c2); try done.
    congruence.
  - intros HPRN. rewrite HIR in HPRN. simplify_eq.
    assert (branchtable !! PRN = Some handle_PRN) as Htab by reflexivity.
    assert (h = handle_PRN) as -> by congruence.
    unfold handle_PRN, bind, get_reg, of_option in Hh.
    change (reg (fetched c)) with (reg c) in Hh.
    destruct (py_get (reg c) a) as [v|] eqn:Hv; [|done].
    exists a, v. repeat split; try done.
    unfold ret at 1, print in Hh. by simplify_eq.
Qed.

Lemma only_PRN_prints_witness :
  (ram_at (loaded [PRN; 0]) (pc (loaded [PRN; 0])) ≠ Some PRN →
   stdout (with_pc 2 (with_print "0" (fetched (loaded [PRN; 0]))))
   = stdout (loaded [PRN; 0])) ∧
  (ram_at (loaded [PRN; 0]) (pc (loaded [PRN; 0])) = Some PRN →
   ∃ r v, ram_at (loaded [PRN; 0]) (pc (loaded [PRN; 0]) + 1) = Some r ∧
          reg_at (loaded [PRN; 0]) r = Some v ∧
          stdout (with_pc 2 (with_print "0" (fetched (loaded [PRN; 0]))))
          = stdout (loaded [PRN; 0]) ++ [pretty v]).
Proof.
  apply (only_PRN_prints (loaded [PRN; 0])
           (with_pc 2 (with_print "0" (fetched (loaded [PRN; 0]))))).
  vm_compute. reflexivity.
Defined.

(** * Invariants of the loop *)

Lemma loop_invariant (I : CPU → Prop) :
  (∀ c, I c → I (cycle_state (cycle c))) →
  ∀ fuel c, I c → I (run_state (loop fuel c)).
Proof.
  intros Hstep. induction fuel as [|fuel IH]; intros c Hc; cbn [loop].
  - by destruct (running c).
  - destruct (running c); [|done].
    specialize (Hstep c Hc). destruct (cycle c); simpl in *; auto.
Qed.

Lemma get_reg_Ok_inv i c x c' : get_reg i c = Ok x c' → c' = c ∧ reg_at c i = Some x.
Proof.
  unfold get_reg, reg_at, of_option, ret, raise.
  destruct (py_get (reg c) i); intros; by simplify_eq.
Qed.

Lemma set_flag_outcome i v c :
  match set_flag i v c with
  | Ok _ c' => ∃ k, flags c' = <[k := v]> (flags c)
  | Raise _ c' => flags c' = flags c
  end.
Proof.
  unfold set_flag, py_set.
  destruct (py_index (length (flags c)) i) as [k|]; simpl; eauto.
Qed.

(** CMP changes the flags by writing one 1, if at all. *)
Lemma handle_CMP_flags a b d c :
  match handle_CMP a b d c with
  | Ok _ c' | Raise _ c' =>
      flags c' = flags c ∨ ∃ k, flags c' = <[k := 1]> (flags c)
  end.
Proof.
  open_handler. unfold bind at 1.
  destruct (get_reg a c) as [x c1|e c1] eqn:Ha.
  2:{ left. pose proof (frame_get_reg flags a c) as H. by rewrite Ha in H. }
  apply get_reg_Ok_inv in Ha as (-> & _). unfold bind at 1.
  destruct (get_reg b c) as [y c1|e c1] eqn:Hb.
  2:{ left. pose proof (frame_get_reg flags b c) as H. by rewrite Hb in H. }
  apply get_reg_Ok_inv in Hb as (-> & _).
  repeat case_bool_decide; try lia;
    match goal with
    | |- context [set_flag ?i ?v c] =>
        pose proof (set_flag_outcome i v c) as H';
        destruct (set_flag i v c); [right|left]; done
    end.
Qed.

Lemma handler_flags_step (IR : Z) (h : handler) a b d c :
  branchtable !! IR = Some h →
  match h a b d c with
  | Ok _ c' | Raise _ c' =>
      flags c' = flags c ∨ ∃ k, flags c' = <[k := 1]> (flags c)
  end.
Proof.
  intros Hb. destruct (decide (IR = CMP)) as [->|Hne].
  - assert (h = handle_CMP) as ->.
    { assert (branchtable !! CMP = Some handle_CMP) by reflexivity. congruence. }
    apply handle_CMP_flags.
  - pose proof (handler_keeps_flags IR h a b d Hb Hne c) as Hk.
    destruct (h a b d c); by left.
Qed.

(** The flags after a cycle, whatever its opcode and however it ends. *)
Lemma cycle_flags_step c :
  flags (cycle_state (cycle c)) = flags c ∨
  ∃ k, flags (cycle_state (cycle c)) = <[k := 1]> (flags c).
Proof.
  unfold cycle. pose proof (fetch_frame flags ltac:(done) c) as Hf.
  destruct (fetch c) as [[[[IR a] b] d] c1|e c1]; [|by left].
  unfold dispatch.
  destruct ((branchtable !! IR) : option handler) as [h|] eqn:Hb.
  - pose proof (handler_flags_step IR h a b d c1 Hb) as Hh.
    destruct (h a b d c1) as [[] c2|e c2]; simpl.
    + case_match; simpl; by rewrite <- Hf.
    + by rewrite <- Hf.
  - simpl. left. done.
Qed.

(** X5. Once the equal flag is 1, it is 1 at the end of the run: no cycle
    clears it, so from then on JNE never jumps. *)
Theorem equal_flag_stays_set (fuel : nat) (c : CPU) :
  flags c !! 7%nat = Some 1 →
  flags (run_state (run fuel c)) !! 7%nat = Some 1.
Proof.
  intros H. unfold run.
  apply (loop_invariant (λ c, flags c !! 7%nat = Some 1)); [|done].
  clear. intros c H.
  destruct (cycle_flags_step c) as [->|[k ->]]; [done|].
  destruct (decide (k = 7%nat)) as [->|Hne].
  - apply list_lookup_insert_eq. by apply lookup_lt_Some in H.
  - by rewrite list_lookup_insert_ne.
Qed.

Lemma equal_flag_stays_set_witness :
  flags (run_state (run 10 (with_flags [0; 0; 0; 0; 0; 0; 0; 1]
                               (loaded [LDI; 1; 1; CMP; 0; 1; HLT]))))
    !! 7%nat = Some 1.
Proof.
  apply (equal_flag_stays_set 10
           (with_flags [0; 0; 0; 0; 0; 0; 0; 1] (loaded [LDI; 1; 1; CMP; 0; 1; HLT]))).
  reflexivity.
Defined.

(** X6. If every flag cell holds 0 or 1 before a run, so it does after:
    CMP is the only writer and it writes 1. *)
Theorem flags_stay_bits (fuel : nat) (c : CPU) :
  Forall (λ v, v = 0 ∨ v = 1) (flags c) →
  Forall (λ v, v = 0 ∨ v = 1) (flags (run_state (run fuel c))).
Proof.
  intros H. unfold run.
  apply (loop_invariant (λ c, Forall (λ v, v = 0 ∨ v = 1) (flags c))); [|done].
  clear. intros c H.
  destruct (cycle_flags_step c) as [->|[k ->]]; [done|].
  destruct (decide (k < length (flags c))%nat) as [Hlt|Hge].
  - apply Forall_insert; auto.
  - by rewrite list_insert_ge by lia.
Qed.

Lemma flags_stay_bits_witness :
  Forall (λ v, v = 0 ∨ v = 1)
    (flags (run_state (run 10 (loaded [LDI; 1; 1; CMP; 0; 1; HLT])))).
Proof.
  apply (flags_stay_bits 10 (loaded [LDI; 1; 1; CMP; 0; 1; HLT])).
  simpl. repeat constructor.
Defined.

(** * Single instructions *)

Lemma not_control_flow IR :
  IR ∈ [NOP; SUB; DIV; INC; DEC; LD; ST; PRA; HLT; LDI; PRN; PUSH; POP] →
  IR ∉ control_flow.
Proof.
  intros Hin Hcf. unfold control_flow in Hcf.
  repeat (apply elem_of_cons in Hin as [->|Hin];
          [repeat (apply elem_of_cons in Hcf as [Hcf|Hcf]; [by vm_compute in Hcf|]);
           by apply elem_of_nil in Hcf|]).
  by apply elem_of_nil in Hin.
Qed.

(** X7. SUB, DIV, INC, DEC, LD, ST and PRA do what NOP does: the cycle
    only moves the program counter past the instruction. *)
Theorem unimplemented_opcodes_only_advance (c c1 : CPU) (IR a b d : Z) :
  fetch c = Ok (IR, a, b, d) c1 →
  IR ∈ [NOP; SUB; DIV; INC; DEC; LD; ST; PRA] →
  cycle c = Next (with_pc (pc c + inst_len IR) (fetched c)).
Proof.
  intros Hf Hin.
  assert (c1 = fetched c) as -> by (by apply fetch_Ok in Hf as (-> & _)).
  assert (IR ∉ control_flow) as Hcf.
  { apply not_control_flow.
    repeat (apply elem_of_cons in Hin as [->|Hin]; [in_list|]).
    by apply elem_of_nil in Hin. }
  assert (∃ h : handler, branchtable !! IR = Some h ∧
                         h a b d (fetched c) = Ok () (fetched c)) as (h & Hb & Hh).
  { repeat (apply elem_of_cons in Hin as [->|Hin]; [by eexists|]).
    by apply elem_of_nil in Hin. }
  rewrite (cycle_return _ _ _ _ _ _ _ _ Hf Hb Hh).
  by rewrite bool_decide_eq_false_2.
Qed.

Lemma unimplemented_opcodes_only_advance_witness :
  cycle (loaded [ST; 0; 1]) = Next (with_pc (pc (loaded [ST; 0; 1]) + inst_len ST)
                                      (fetched (loaded [ST; 0; 1]))).
Proof.
  apply (unimplemented_opcodes_only_advance
           (loaded [ST; 0; 1]) (fetched (loaded [ST; 0; 1])) ST 0 1 0).
  - reflexivity.
  - in_list.
Defined.


(** The only exception the fetch can raise. *)
Lemma fetch_Raise c e c1 : fetch c = Raise e c1 → e = IndexError.
Proof.
  unfold fetch, bind, get_pc, ram_read, get_ram, of_option, ret, raise. simpl.
  repeat (match goal with
          | |- context [py_get ?l ?i] => destruct (py_get l i); simpl
          end);
    intros; by simplify_eq.
Qed.

(** X9. An exception leaves [run] uncaught exactly when one of the four
    cells read at the head of the cycle is outside memory, that is when
    the program counter is above 251 or below -255; the exception is then
    an IndexError. *)
Theorem uncaught_iff_fetch_outside_memory (c : CPU) :
  wf c →
  ((∃ e c', cycle c = Uncaught e c') ↔ (pc c < -255 ∨ 251 < pc c)) ∧
  (∀ e c', cycle c = Uncaught e c' → e = IndexError).
Proof.
  intros (_ & Hram & _).
  assert (∀ i, is_Some (ram_at c i) ↔ -255 ≤ i < 255) as Hin.
  { intros i. unfold ram_at. rewrite <- py_get_is_Some, Hram.
    unfold in_range. lia. }
  split.
  - split.
    + intros (e & c' & Hc) . unfold cycle in Hc.
      destruct (fetch c) as [[[[IR a] b] d] c1|e1 c1] eqn:Hf.
      { destruct (dispatch IR a b d c1); [by case_match|done]. }
      destruct (decide (pc c < -255 ∨ 251 < pc c)) as [|Hok]; [done|].
      exfalso.
      destruct (proj2 (Hin (pc c)) ltac:(lia)) as [x0 H0].
      destruct (proj2 (Hin (pc c + 1)) ltac:(lia)) as [x1 H1].
      destruct (proj2 (Hin (pc c + 2)) ltac:(lia)) as [x2 H2].
      destruct (proj2 (Hin (pc c + 3)) ltac:(lia)) as [x3 H3].
      assert (fetch c = Ok (x0, x1, x2, x3) (fetched c)) as Hf'
        by (by apply fetch_Ok).
      congruence.
    + intros Hout. unfold cycle.
      destruct (fetch c) as [[[[IR a] b] d] c1|e1 c1] eqn:Hf; [|by eauto].
      exfalso. apply fetch_Ok in Hf as (_ & H0 & _ & _ & H3).
      pose proof (proj1 (Hin (pc c)) (mk_is_Some _ _ H0)).
      pose proof (proj1 (Hin (pc c + 3)) (mk_is_Some _ _ H3)).
      lia.
  - intros e c' Hc. unfold cycle in Hc.
    destruct (fetch c) as [[[[IR a] b] d] c1|e1 c1] eqn:Hf.
    + destruct (dispatch IR a b d c1); [by case_match|done].
    + simplify_eq. by eapply fetch_Raise.
Qed.

Lemma uncaught_iff_fetch_outside_memory_witness :
  ((∃ e c', cycle (with_pc 252 init) = Uncaught e c')
   ↔ (pc (with_pc 252 init) < -255 ∨ 251 < pc (with_pc 252 init))) ∧
  (∀ e c', cycle (with_pc 252 init) = Uncaught e c' → e = IndexError).
Proof.
  apply (uncaught_iff_fetch_outside_memory (with_pc 252 init)).
  repeat split; reflexivity.
Defined.

(** X10. JEQ jumps exactly when the equal flag is 1 and JNE exactly when
    it is 0: with the flag at 0 or 1, one of them goes to the register's
    address and the other to the next instruction. *)
Theorem JEQ_and_JNE_are_complementary (c : CPU) (r b d v f : Z) :
  flag_at c flag_equal = Some f →
  reg_at c r = Some v →
  handle_JEQ r b d c = Ok () (with_pc (if bool_decide (f = 1) then v else pc c + 2) c) ∧
  handle_JNE r b d c = Ok () (with_pc (if bool_decide (f = 0) then v else pc c + 2) c) ∧
  (f = 0 ∨ f = 1 → bool_decide (f = 1) = negb (bool_decide (f = 0))).
Proof.
  intros Hf Hr. split; [by apply handle_JEQ_Ok|]. split; [by apply handle_JNE_Ok|].
  intros [-> | ->]; done.
Qed.

Lemma JEQ_and_JNE_are_complementary_witness :
  handle_JEQ 1 0 0 (with_pc 8 (with_registers 0 40))
  = Ok () (with_pc (if bool_decide (0 = 1) then 40
                    else pc (with_pc 8 (with_registers 0 40)) + 2)
             (with_pc 8 (with_registers 0 40))) ∧
  handle_JNE 1 0 0 (with_pc 8 (with_registers 0 40))
  = Ok () (with_pc (if bool_decide (0 = 0) then 40
                    else pc (with_pc 8 (with_registers 0 40)) + 2)
             (with_pc 8 (with_registers 0 40))) ∧
  (0 = 0 ∨ 0 = 1 → bool_decide (0 = 1) = negb (bool_decide (0 = 0))).
Proof.
  apply (JEQ_and_JNE_are_complementary (with_pc 8 (with_registers 0 40)) 1 0 0 40 0);
    reflexivity.
Defined.

(** * Memory cells *)

(** A negative index names the cell [len] places further on. *)
Lemma py_index_negative len i :
  - Z.of_nat len ≤ i < 0 → py_index len i = py_index len (i + Z.of_nat len).
Proof.
  intros H. unfold py_index.
  rewrite (bool_decide_eq_false_2 (0 ≤ i < _)) by lia.
  rewrite (bool_decide_eq_true_2 (- _ ≤ i < 0)) by lia.
  by rewrite (bool_decide_eq_true_2 (0 ≤ i + _ < _)) by lia.
Qed.

(** Two valid indices name the same cell when they are equal or differ by
    the length of the list. *)
Lemma py_index_same_cell len i j k :
  py_index len i = Some k →
  (py_index len j = Some k ↔ in_range len j ∧ (j = i ∨ j = i + Z.of_nat len ∨ j = i - Z.of_nat len)).
Proof.
  unfold py_index, in_range.
  repeat case_bool_decide; intros ?; simplify_eq; split;
    try (intros ?; simplify_eq; lia);
    try (intros [? ?]; try lia; f_equal; lia).
Qed.

(** X11. [ram_write] then [ram_read] of the same address gives the value
    back; any other cell of memory is as before; an address outside
    -len..len-1 makes [ram_write] raise IndexError with memory unchanged. *)
Theorem ram_write_then_read (c : CPU) (address value : Z) :
  (in_range (length (ram c)) address →
   ∃ c1, ram_write address value c = Ok () c1 ∧
         ram_read address c1 = Ok value (with_read address c1) ∧
         length (ram c1) = length (ram c) ∧
         ∀ other, in_range (length (ram c)) other →
                  other ≠ address →
                  other ≠ address + Z.of_nat (length (ram c)) →
                  other ≠ address - Z.of_nat (length (ram c)) →
                  ram_at c1 other = ram_at c other) ∧
  (¬ in_range (length (ram c)) address →
   ram_write address value c = Raise IndexError c).
Proof.
  split.
  - intros [k Hk]%py_index_in_range.
    exists (with_ram (<[k := value]> (ram c)) c).
    split; [by apply set_ram_ok|]. split.
    { unfold ram_read, get_ram. simpl. by rewrite (py_get_insert_eq _ _ _ _ Hk). }
    split; [simpl; apply length_insert|].
    intros other [k' Hk']%py_index_in_range Hne1 Hne2 Hne3.
    unfold ram_at. simpl. apply (py_get_insert_ne _ _ _ k'); [done|].
    intros <-. apply (py_index_same_cell _ _ _ _ Hk) in Hk'. lia.
  - intros Hout. unfold ram_write, set_ram, py_set.
    destruct (py_index (length (ram c)) address) as [k|] eqn:Hk; [|done].
    exfalso. apply Hout, py_index_in_range. eauto.
Qed.

Lemma ram_write_then_read_witness :
  ∃ c1, ram_write 10 77 init = Ok () c1 ∧
        ram_read 10 c1 = Ok 77 (with_read 10 c1) ∧
        length (ram c1) = length (ram init) ∧
        ∀ other, in_range (length (ram init)) other →
                 other ≠ 10 →
                 other ≠ 10 + Z.of_nat (length (ram init)) →
                 other ≠ 10 - Z.of_nat (length (ram init)) →
                 ram_at c1 other = ram_at init other.
Proof.
  apply (ram_write_then_read init 10 77).
  unfold in_range. simpl. lia.
Defined.

(** * More on the stack *)

(** X12. Nothing stops the stack pointer at 0: a PUSH with the stack
    pointer between -254 and 0 succeeds, leaves a negative stack pointer,
    and stores the register at the top of memory, in the cell
    [reg[7] - 1 + 255]. *)
Theorem PUSH_wraps_below_zero (c : CPU) (r b d sp x : Z) :
  wf c →
  reg_at c stack_pointer = Some sp →
  -254 ≤ sp ≤ 0 →
  0 ≤ r < 7 →
  reg_at c r = Some x →
  ∃ c1, handle_PUSH r b d c = Ok () c1 ∧
        reg_at c1 stack_pointer = Some (sp - 1) ∧
        ram_at c1 (sp - 1 + 255) = Some x.
Proof.
  intros (Hlen & Hram & Hfl) Hsp Hrange Hr Hx.
  apply (reg_at_sp _ _ Hlen) in Hsp.
  assert (py_index 8 r = Some (Z.to_nat r)) as Hkr by (apply py_index_nonneg; lia).
  assert (py_index (length (ram c)) (sp - 1) = Some (Z.to_nat (sp - 1 + 255))) as Hka.
  { rewrite Hram, py_index_negative by lia. apply py_index_nonneg. lia. }
  destruct (handle_PUSH_Ok c r b d _ _ sp Hlen Hsp Hkr Hka) as (v & Hv & Hpush).
  rewrite list_lookup_insert_ne in Hv by lia.
  unfold reg_at, py_get in Hx. rewrite Hlen, Hkr in Hx. simpl in Hx.
  assert (v = x) as -> by congruence.
  eexists. split; [exact Hpush|]. split.
  - unfold reg_at. simpl.
    rewrite (py_get_Some _ _ 7%nat) by (by rewrite length_insert, Hlen).
    apply list_lookup_insert_eq. lia.
  - unfold ram_at. simpl. apply py_get_insert_eq.
    rewrite Hram. apply py_index_nonneg. lia.
Qed.

Lemma PUSH_wraps_below_zero_witness :
  ∃ c1, handle_PUSH 0 0 0 (with_reg [5; 0; 0; 0; 0; 0; 0; 0] init) = Ok () c1 ∧
        reg_at c1 stack_pointer = Some (0 - 1) ∧
        ram_at c1 (0 - 1 + 255) = Some 5.
Proof.
  apply (PUSH_wraps_below_zero (with_reg [5; 0; 0; 0; 0; 0; 0; 0] init) 0 0 0 0 5).
  - repeat split; reflexivity.
  - reflexivity.
  - lia.
  - lia.
  - reflexivity.
Defined.

(** X13. The stack is last-in first-out: PUSH a, PUSH b, POP a, POP b
    exchanges two general registers and puts the stack pointer back. *)
Theorem push_push_pop_pop_swaps (c : CPU) (a b sp x y : Z) :
  wf c →
  0 ≤ a < 7 → 0 ≤ b < 7 → a ≠ b →
  reg_at c a = Some x →
  reg_at c b = Some y →
  reg_at c stack_pointer = Some sp →
  in_range 255 (sp - 1) → in_range 255 (sp - 2) →
  ∃ c1 c2 c3 c4,
    handle_PUSH a 0 0 c = Ok () c1 ∧
    handle_PUSH b 0 0 c1 = Ok () c2 ∧
    handle_POP a 0 0 c2 = Ok () c3 ∧
    handle_POP b 0 0 c3 = Ok () c4 ∧
    reg_at c4 a = Some y ∧
    reg_at c4 b = Some x ∧
    reg_at c4 stack_pointer = Some sp.
Proof.
  intros (Hlen & Hram & Hfl) Ha Hb Hab Hx Hy Hsp
    [k1 Hk1]%py_index_in_range [k2 Hk2]%py_index_in_range.
  apply (reg_at_sp _ _ Hlen) in Hsp.
  assert (py_index 8 a = Some (Z.to_nat a)) as Hka by (apply py_index_nonneg; lia).
  assert (py_index 8 b = Some (Z.to_nat b)) as Hkb by (apply py_index_nonneg; lia).
  set (ka := Z.to_nat a) in *. set (kb := Z.to_nat b) in *.
  assert (ka ≠ 7%nat ∧ kb ≠ 7%nat ∧ ka ≠ kb ∧ (ka < 8)%nat ∧ (kb < 8)%nat)
    as (Ha7 & Hb7 & Hkab & Hka8 & Hkb8) by (subst ka kb; lia).
  assert (k1 ≠ k2) as Hk12.
  { intros <-. apply (py_index_same_cell _ _ _ _ Hk1) in Hk2.
    simpl in Hk2. lia. }
  unfold reg_at, py_get in Hx, Hy. rewrite Hlen in Hx, Hy.
  rewrite Hka in Hx. rewrite Hkb in Hy. simpl in Hx, Hy.
  rewrite <- Hram in Hk1, Hk2.
  (* PUSH a *)
  destruct (handle_PUSH_Ok c a 0 0 ka k1 sp Hlen Hsp Hka Hk1) as (v1 & Hv1 & H1).
  rewrite list_lookup_insert_ne in Hv1 by done.
  assert (v1 = x) as -> by congruence.
  set (c1 := with_ram _ _) in H1.
  assert (length (reg c1) = 8%nat) as Hlen1 by (simpl; by rewrite length_insert).
  assert (reg c1 !! 7%nat = Some (sp - 1)) as Hsp1
    by (simpl; apply list_lookup_insert_eq; lia).
  assert (py_index (length (ram c1)) (sp - 1 - 1) = Some k2) as Hk2'.
  { simpl. rewrite length_insert. by replace (sp - 1 - 1) with (sp - 2) by lia. }
  (* PUSH b *)
  destruct (handle_PUSH_Ok c1 b 0 0 kb k2 (sp - 1) Hlen1 Hsp1 Hkb Hk2')
    as (v2 & Hv2 & H2).
  simpl in Hv2. rewrite list_insert_insert_eq in Hv2.
  rewrite list_lookup_insert_ne in Hv2 by done.
  assert (v2 = y) as -> by congruence.
  set (c2 := with_ram _ _) in H2.
  assert (length (reg c2) = 8%nat) as Hlen2 by (simpl; by rewrite !length_insert).
  assert (reg c2 !! 7%nat = Some (sp - 1 - 1)) as Hsp2.
  { simpl. apply list_lookup_insert_eq. rewrite length_insert. lia. }
  assert (py_index (length (ram c2)) (sp - 1 - 1) = Some k2) as Hk2''.
  { simpl. by rewrite length_insert. }
  assert (ram c2 !! k2 = Some y) as Hcell2.
  { simpl. apply list_lookup_insert_eq. rewrite length_insert.
    by apply py_index_lt in Hk2. }
  (* POP a *)
  destruct (handle_POP_Ok c2 a 0 0 ka k2 (sp - 1 - 1) y Hlen2 Hsp2 Hka Hk2'' Hcell2)
    as (s3 & Hs3 & H3).
  rewrite list_lookup_insert_ne in Hs3 by done.
  assert (s3 = sp - 1 - 1) as -> by congruence.
  set (c3 := with_reg _ c2) in H3.
  assert (length (reg c3) = 8%nat) as Hlen3 by (simpl; by rewrite !length_insert).
  assert (reg c3 !! 7%nat = Some (sp - 1)) as Hsp3.
  { simpl. replace (sp - 1 - 1 + 1) with (sp - 1) by lia.
    apply list_lookup_insert_eq. rewrite !length_insert. lia. }
  assert (py_index (length (ram c3)) (sp - 1) = Some k1) as Hk1'.
  { simpl. by rewrite !length_insert. }
  assert (ram c3 !! k1 = Some x) as Hcell1.
  { simpl. rewrite list_lookup_insert_ne by done.
    apply list_lookup_insert_eq. apply py_index_lt in Hk1. done. }
  (* POP b *)
  destruct (handle_POP_Ok c3 b 0 0 kb k1 (sp - 1) x Hlen3 Hsp3 Hkb Hk1' Hcell1)
    as (s4 & Hs4 & H4).
  rewrite list_lookup_insert_ne in Hs4 by done.
  assert (s4 = sp - 1) as -> by congruence.
  set (c4 := with_reg _ c3) in H4.
  exists c1, c2, c3, c4. repeat (split; [done|]).
  assert (length (reg c4) = 8%nat) as Hlen4 by (simpl; by rewrite !length_insert).
  unfold reg_at, py_get. rewrite Hlen4, Hka, Hkb. simpl.
  replace (sp - 1 + 1) with sp by lia.
  split; [|split].
  - rewrite list_lookup_insert_ne by done.
    rewrite list_lookup_insert_ne by done.
    rewrite list_lookup_insert_ne by done.
    apply list_lookup_insert_eq. rewrite !length_insert. lia.
  - rewrite list_lookup_insert_ne by done.
    apply list_lookup_insert_eq. rewrite !length_insert. lia.
  - apply list_lookup_insert_eq. rewrite !length_insert. lia.
Qed.

Lemma push_push_pop_pop_swaps_witness :
  ∃ c1 c2 c3 c4,
    handle_PUSH 0 0 0 (with_registers 3 4) = Ok () c1 ∧
    handle_PUSH 1 0 0 c1 = Ok () c2 ∧
    handle_POP 0 0 0 c2 = Ok () c3 ∧
    handle_POP 1 0 0 c3 = Ok () c4 ∧
    reg_at c4 0 = Some 4 ∧
    reg_at c4 1 = Some 3 ∧
    reg_at c4 stack_pointer = Some 0xF4.
Proof.
  apply (push_push_pop_pop_swaps (with_registers 3 4) 0 1 0xF4 3 4);
    try reflexivity; try lia; try (repeat split; reflexivity);
    unfold in_range; simpl; lia.
Defined.

(** * NOT *)

(** X14. NOT is the complement of an unbounded integer: a register
    holding [x >= 0] is left holding [-x - 1], which is negative, and a
    SHL or SHR of that register then fails with ValueError. *)
Theorem NOT_gives_negative_then_shifts_fail (c : CPU) (a b d x : Z) :
  reg_at c a = Some x →
  0 ≤ x →
  ∃ c1, handle_NOT a b d c = Ok () c1 ∧
        reg_at c1 a = Some (- x - 1) ∧
        ∀ b' d', handle_SHL a b' d' c1 = Raise ValueError c1 ∧
                 handle_SHR a b' d' c1 = Raise ValueError c1.
Proof.
  intros Ha Hx. destruct (py_get_inv _ _ _ Ha) as (ka & Hka & _).
  exists (with_reg (<[ka := - x - 1]> (reg c)) c).
  assert (reg_at (with_reg (<[ka := - x - 1]> (reg c)) c) a = Some (- x - 1)) as Ha1.
  { unfold reg_at. simpl. by apply py_get_insert_eq. }
  split.
  { open_handler. rewrite (bind_Ok _ _ _ _ _ (get_reg_at _ _ _ Ha)).
    replace (Z.lnot x) with (- x - 1) by (unfold Z.lnot; lia).
    by apply set_reg_ok. }
  split; [done|]. intros b' d'. split; open_handler.
  - rewrite (bind_Ok _ _ _ _ _ (get_reg_at _ _ _ Ha1)).
    rewrite (bind_Ok _ _ _ _ _ (get_reg_at _ _ _ Ha1)).
    unfold py_shl. rewrite bool_decide_eq_true_2 by lia. done.
  - rewrite (bind_Ok _ _ _ _ _ (get_reg_at _ _ _ Ha1)).
    rewrite (bind_Ok _ _ _ _ _ (get_reg_at _ _ _ Ha1)).
    unfold py_shr. rewrite bool_decide_eq_true_2 by lia. done.
Qed.

Lemma NOT_gives_negative_then_shifts_fail_witness :
  ∃ c1, handle_NOT 0 0 0 (with_registers 5 0) = Ok () c1 ∧
        reg_at c1 0 = Some (- 5 - 1) ∧
        ∀ b' d', handle_SHL 0 b' d' c1 = Raise ValueError c1 ∧
                 handle_SHR 0 b' d' c1 = Raise ValueError c1.
Proof.
  apply (NOT_gives_negative_then_shifts_fail (with_registers 5 0) 0 0 0 5).
  - reflexivity.
  - lia.
Defined.

(** * The loader *)

Section Loader.
Implicit Types (line : string) (lines : list string) (c : CPU) (n : nat).

Lemma with_ram_id c : with_ram (ram c) c = c.
Proof. by destruct c. Qed.

Lemma load_lines_from_app address lines1 lines2 c :
  load_lines_from address (lines1 ++ lines2) c
  = bind (load_lines_from address lines1) (λ m, load_lines_from m lines2) c.
Proof.
  revert address c.
  induction lines1 as [|line lines1 IH]; intros address c; [reflexivity|].
  simpl. destruct (leading_digits line) as [|ch s]; [apply IH|].
  unfold bind. destruct (int_base2 (String ch s) c) as [v c1|]; [|done].
  destruct (set_ram address v c1) as [[] c2|]; [|done].
  by rewrite IH.
Qed.

(** A line that passes the regular expression and holds only 0s and 1s
    stores its value and moves on by one address. *)
Lemma load_line_Ok line lines n c :
  leading_digits line ≠ EmptyString →
  all_binary (leading_digits line) = true →
  (n < length (ram c))%nat →
  load_lines_from (Z.of_nat n) (line :: lines) c
  = load_lines_from (Z.of_nat (S n)) lines
      (with_ram (<[n := of_bin_digits 0 (leading_digits line)]> (ram c)) c).
Proof.
  intros Hne Hbin Hn. simpl.
  destruct (leading_digits line) as [|ch s] eqn:Hl; [done|].
  unfold bind at 1, int_base2. rewrite Hbin. unfold ret at 1.
  rewrite (bind_Ok _ _ _ _ _ (set_ram_ok c (Z.of_nat n) n _ ltac:(
    rewrite py_index_nonneg by lia; by rewrite Nat2Z.id))).
  by replace (Z.of_nat n + 1) with (Z.of_nat (S n)) by lia.
Qed.

Lemma load_lines_from_Ok lines n c :
  Forall (λ line, leading_digits line ≠ EmptyString ∧
                  all_binary (leading_digits line) = true) lines →
  (n + length lines ≤ length (ram c))%nat →
  load_lines_from (Z.of_nat n) lines c
  = Ok (Z.of_nat (n + length lines))
      (with_ram (take n (ram c)
                 ++ ((λ line, of_bin_digits 0 (leading_digits line)) <$> lines)
                 ++ drop (n + length lines) (ram c)) c).
Proof.
  intros Hall. revert n c.
  induction Hall as [|line lines [Hne Hbin] _ IH]; intros n c Hlen.
  - simpl. rewrite Nat.add_0_r, take_drop, with_ram_id. done.
  - simpl in Hlen. rewrite (load_line_Ok line lines n c Hne Hbin) by lia.
    rewrite IH by (simpl; rewrite length_insert; lia).
    simpl length. rewrite fmap_cons.
    replace (S n + length lines)%nat with (n + S (length lines))%nat by lia.
    f_equal. unfold with_ram. simpl. f_equal.
    rewrite (take_S_r _ _ (of_bin_digits 0 (leading_digits line)))
      by (apply list_lookup_insert_eq; lia).
    rewrite take_insert_ge by lia. rewrite drop_insert_lt by lia.
    by rewrite <- (assoc_L (++)).
Qed.

Lemma load_lines_from_zero lines c :
  Forall (λ line, leading_digits line ≠ EmptyString ∧
                  all_binary (leading_digits line) = true) lines →
  (length lines ≤ length (ram c))%nat →
  load_lines_from 0 lines c
  = Ok (Z.of_nat (length lines))
      (with_ram (((λ line, of_bin_digits 0 (leading_digits line)) <$> lines)
                 ++ drop (length lines) (ram c)) c).
Proof. intros Hall Hlen. exact (load_lines_from_Ok lines 0 c Hall Hlen). Qed.
End Loader.

(** X15. The loader passes over every line that does not begin with a
    digit (blank lines, comments, indented text): taking such a line out
    of the file changes nothing. *)
Theorem load_skips_lines_without_leading_digit
    (before after : list string) (line : string) (c : CPU) :
  match line with
  | EmptyString => True
  | String ch _ => is_digit ch = false
  end →
  load_file (before ++ line :: after) c = load_file (before ++ after) c.
Proof.
  intros Hline. unfold load_file. rewrite !load_lines_from_app.
  unfold bind. destruct (load_lines_from 0 before c) as [m c1|]; [|done].
  simpl. destruct line as [|ch s]; [done|]. simpl. by rewrite Hline.
Qed.

Lemma load_skips_lines_without_leading_digit_witness :
  load_file (["10000010"] ++ "# load R0" :: ["00000000"]) init
  = load_file (["10000010"] ++ ["00000000"]) init.
Proof.
  apply (load_skips_lines_without_leading_digit
           ["10000010"] ["00000000"] "# load R0" init).
  reflexivity.
Defined.

(** X16. When every line begins with a run of 0s and 1s and there are no
    more lines than memory cells, the loader returns their number, the
    values sit at addresses 0, 1, 2, ... in file order, and the rest of
    memory and of the machine is untouched. *)
Theorem load_stores_values_in_order (lines : list string) (c : CPU) :
  Forall (λ line, leading_digits line ≠ EmptyString ∧
                  all_binary (leading_digits line) = true) lines →
  (length lines ≤ length (ram c))%nat →
  load_file lines c
  = Ok (Z.of_nat (length lines))
      (with_ram (((λ line, of_bin_digits 0 (leading_digits line)) <$> lines)
                 ++ drop (length lines) (ram c)) c).
Proof.
  intros Hall Hlen. by apply load_lines_from_zero.
Qed.

Lemma load_stores_values_in_order_witness :
  load_file ["10000010 # LDI"; "00000000"; "00001000"; "00000001 # HLT"] init
  = Ok 4 (with_ram ([LDI; 0; 8; HLT] ++ drop 4 (ram init)) init).
Proof.
  apply (load_stores_values_in_order
           ["10000010 # LDI"; "00000000"; "00001000"; "00000001 # HLT"] init).
  - repeat constructor; done.
  - simpl. lia.
Defined.

(** X17. A program with more bytes than memory cells makes the loader
    raise IndexError at the first byte that does not fit, after the
    earlier ones have filled memory. *)
Theorem load_past_end_of_memory (fit rest : list string) (line : string) (c : CPU) :
  Forall (λ line, leading_digits line ≠ EmptyString ∧
                  all_binary (leading_digits line) = true) fit →
  length fit = length (ram c) →
  leading_digits line ≠ EmptyString →
  all_binary (leading_digits line) = true →
  load_file (fit ++ line :: rest) c
  = Raise IndexError
      (with_ram ((λ line, of_bin_digits 0 (leading_digits line)) <$> fit) c).
Proof.
  intros Hall Hlen Hne Hbin. unfold load_file.
  rewrite load_lines_from_app.
  rewrite (bind_Ok _ _ _ _ _ (load_lines_from_zero fit c Hall ltac:(lia))).
  simpl. rewrite Hlen, drop_all, app_nil_r.
  destruct (leading_digits line) as [|ch s] eqn:Hl; [done|].
  unfold bind at 1, int_base2. rewrite Hbin. unfold ret at 1.
  unfold bind, set_ram, py_set, py_index. simpl.
  rewrite length_fmap, Hlen.
  rewrite bool_decide_eq_false_2 by lia.
  rewrite bool_decide_eq_false_2 by lia. done.
Qed.

Lemma load_past_end_of_memory_witness :
  load_file (replicate 255 "1" ++ "0" :: []) init
  = Raise IndexError
      (with_ram ((λ line, of_bin_digits 0 (leading_digits line)) <$> replicate 255 "1")
         init).
Proof.
  apply (load_past_end_of_memory (replicate 255 "1") [] "0" init).
  - apply Forall_replicate. done.
  - reflexivity.
  - done.
  - reflexivity.
Defined.

(** X18. A line whose leading digits include one from 2 to 9 stops the
    loader with ValueError; the bytes of the lines before it are already
    in memory. *)
Theorem load_rejects_non_binary_digits
    (good rest : list string) (line : string) (c : CPU) :
  Forall (λ line, leading_digits line ≠ EmptyString ∧
                  all_binary (leading_digits line) = true) good →
  (length good ≤ length (ram c))%nat →
  leading_digits line ≠ EmptyString →
  all_binary (leading_digits line) = false →
  load_file (good ++ line :: rest) c
  = Raise ValueError
      (with_ram (((λ line, of_bin_digits 0 (leading_digits line)) <$> good)
                 ++ drop (length good) (ram c)) c).
Proof.
  intros Hall Hlen Hne Hbin. unfold load_file.
  rewrite load_lines_from_app.
  rewrite (bind_Ok _ _ _ _ _ (load_lines_from_zero good c Hall Hlen)).
  simpl. destruct (leading_digits line) as [|ch s] eqn:Hl; [done|].
  unfold bind at 1, int_base2. by rewrite Hbin.
Qed.

Lemma load_rejects_non_binary_digits_witness :
  load_file (["10000010"] ++ "00000102" :: ["00000001"]) init
  = Raise ValueError
      (with_ram (((λ line, of_bin_digits 0 (leading_digits line)) <$> ["10000010"])
                 ++ drop (length ["10000010"]) (ram init)) init).
Proof.
  apply (load_rejects_non_binary_digits ["10000010"] ["00000001"] "00000102" init).
  - repeat constructor; done.
  - simpl. lia.
  - done.
  - reflexivity.
Defined.

(** ** Binary text, written and read *)

Lemma all_binary_app s t : all_binary (s +:+ t) = all_binary s && all_binary t.
Proof.
  induction s as [|ch s IH]; simpl; [done|].
  rewrite IH. by rewrite andb_assoc.
Qed.

Lemma all_binary_bin_digits p : all_binary (bin_digits p) = true.
Proof.
  induction p as [p IH|p IH|]; simpl; [| |done];
    by rewrite all_binary_app, IH.
Qed.

Lemma all_binary_leading_digits s : all_binary s = true → leading_digits s = s.
Proof.
  induction s as [|ch s IH]; simpl; [done|].
  intros [Hch Hs]%andb_prop.
  assert (is_digit ch = true) as ->.
  { destruct (orb_prop _ _ Hch) as [H|H]; apply Ascii.eqb_eq in H; by subst. }
  by rewrite IH.
Qed.

Lemma bin_digits_nonempty p : bin_digits p ≠ EmptyString.
Proof.
  destruct p as [p|p|]; simpl; [| |done];
    destruct (bin_digits p); discriminate.
Qed.

(** X19. The digits [bin] prints for a positive opcode are a program
    line that loads back as the same number; the whole output of [bin],
    with its [0b] prefix, is not: the loader stops at the [b] and stores
    0. *)
Theorem bin_digits_load_back (p : positive) (c : CPU) :
  (0 < length (ram c))%nat →
  bin (Z.pos p) = "0b" +:+ bin_digits p ∧
  load_file [bin_digits p] c = Ok 1 (with_ram (Z.pos p :: drop 1 (ram c)) c) ∧
  load_file [bin (Z.pos p)] c = Ok 1 (with_ram (0 :: drop 1 (ram c)) c).
Proof.
  intros Hlen. split; [done|]. split.
  - unfold load_file. rewrite (load_lines_from_zero [bin_digits p] c).
    + simpl. rewrite all_binary_leading_digits by apply all_binary_bin_digits.
      by rewrite bin_digits_value.
    + constructor; [|done].
      rewrite all_binary_leading_digits by apply all_binary_bin_digits.
      split; [apply bin_digits_nonempty|apply all_binary_bin_digits].
    + simpl. lia.
  - unfold load_file. rewrite (load_lines_from_zero [bin (Z.pos p)] c).
    + done.
    + constructor; [|done]. by simpl.
    + simpl. lia.
Qed.

Lemma bin_digits_load_back_witness :
  bin (Z.pos 130) = "0b" +:+ bin_digits 130 ∧
  load_file [bin_digits 130] init = Ok 1 (with_ram (Z.pos 130 :: drop 1 (ram init)) init) ∧
  load_file [bin (Z.pos 130)] init = Ok 1 (with_ram (0 :: drop 1 (ram init)) init).
Proof.
  apply (bin_digits_load_back 130 init). simpl. lia.
Defined.

(** * The name table *)

Lemma instructions_entries IR name :
  instructions !! IR = Some name →
  (IR, name) ∈
    [ (0xA0, "ADD"); (0xA1, "SUB"); (0xA2, "MUL"); (0xA3, "DIV");
      (0xA4, "MOD"); (0x65, "INC"); (0x66, "DEC"); (0xA7, "CMP");
      (0xA8, "AND"); (0x69, "NOT"); (0xAA, "OR"); (0xAB, "XOR");
      (0xAC, "SHL"); (0xAD, "SHR"); (0x00, "NOP"); (0x01, "HLT");
      (0x82, "LDI"); (0x83, "LD"); (0x84, "ST"); (0x45, "PUSH");
      (0x46, "POP"); (0x47, "PRN"); (0x48, "PRA"); (0x50, "CALL");
      (0x11, "RET"); (0x54, "JMP"); (0x55, "JEQ"); (0x56, "JNE") ].
Proof. apply elem_of_list_to_map_2. Qed.

(** X20. The debugging table [instructions] names exactly the opcodes
    that have a handler, except ADDI, which has a handler and no name. *)
Theorem instructions_names_every_handler_but_ADDI (IR : Z) :
  is_Some (instructions !! IR) ↔ is_Some (branchtable !! IR) ∧ IR ≠ ADDI.
Proof.
  split.
  - intros [name H%instructions_entries].
    each_entry H; (split; [by eexists|by vm_compute]).
  - intros [[h H%branchtable_entries] Hne].
    each_entry H; try done; by eexists.
Qed.

(** * trace *)

Lemma string_length_app s t :
  String.length (s +:+ t) = (String.length s + String.length t)%nat.
Proof. induction s as [|ch s IH]; simpl; [done|by rewrite IH]. Qed.

Lemma hex2_byte v : 0 ≤ v ≤ 255 → String.length (hex2 v) = 2%nat.
Proof.
  intros Hv.
  assert (forallb (λ v, String.length (hex2 v) =? 2)%nat (seqZ 0 256) = true) as Hall
    by (vm_compute; reflexivity).
  rewrite forallb_forall in Hall.
  apply Nat.eqb_eq, Hall, list_elem_of_In, elem_of_seqZ. lia.
Qed.

Lemma trace_registers_frame {B} (f : CPU → B) text indices :
  (∀ s c, f (with_print s c) = f c) → keeps f (trace_registers text indices).
Proof.
  intros Hf. revert text.
  induction indices as [|i indices IH]; intros text c; simpl; [apply Hf|].
  pose proof (frame_get_reg f i c) as Hg.
  destruct (get_reg i c) as [v c1|e c1].
  - specialize (IH (text +:+ " " +:+ hex2 v) c1).
    destruct (trace_registers _ indices c1); congruence.
  - rewrite Hf. done.
Qed.

Lemma py_index_nonneg_inv len i k :
  py_index len i = Some k → 0 ≤ i → k = Z.to_nat i ∧ i < Z.of_nat len.
Proof. unfold py_index. repeat case_bool_decide; intros; simplify_eq; lia. Qed.

(** X21. [trace] changes nothing in the machine except its output and
    the log of reads, whether it returns or raises. *)
Theorem trace_leaves_machine_alone (c : CPU) :
  match trace c with
  | Ok _ c' | Raise _ c' =>
      ram c' = ram c ∧ reg c' = reg c ∧ flags c' = flags c ∧
      pc c' = pc c ∧ running c' = running c
  end.
Proof.
  assert (keeps (λ c, (ram c, reg c, flags c, pc c, running c)) trace) as Hk.
  { unfold trace.
    repeat (apply keeps_bind; [auto with frame|intros]).
    by apply trace_registers_frame. }
  specialize (Hk c). destruct (trace c); by simplify_eq.
Qed.

(** X22. On a machine with eight registers, [trace] needs only the cells
    at [pc], [pc + 1] and [pc + 2]: when they exist it reads just those
    three and prints one line; when pc, the three cells and the registers
    are bytes the line is 46 characters long.  When one of the cells is
    missing it raises IndexError and prints nothing. *)
Theorem trace_prints_one_line (c : CPU) :
  length (reg c) = 8%nat →
  (is_Some (ram_at c (pc c)) ∧ is_Some (ram_at c (pc c + 1)) ∧
   is_Some (ram_at c (pc c + 2)) →
   ∃ line c',
     trace c = Ok () c' ∧
     stdout c' = stdout c ++ [line] ∧
     ram_reads c' = ram_reads c ++ [pc c; pc c + 1; pc c + 2] ∧
     (0 ≤ pc c ≤ 255 →
      Forall (λ v, 0 ≤ v ≤ 255) (take 3 (drop (Z.to_nat (pc c)) (ram c))) →
      Forall (λ v, 0 ≤ v ≤ 255) (reg c) →
      String.length line = 46%nat)) ∧
  (ram_at c (pc c) = None ∨ ram_at c (pc c + 1) = None ∨
   ram_at c (pc c + 2) = None →
   ∃ c', trace c = Raise IndexError c' ∧ stdout c' = stdout c).
Proof.
  intros Hlen. split.
  - intros ([x0 H0] & [x1 H1] & [x2 H2]).
    destruct (reg c) as [|r0 [|r1 [|r2 [|r3 [|r4 [|r5 [|r6 [|r7 [|]]]]]]]]] eqn:Hreg;
      try done.
    unfold ram_at in H0, H1, H2.
    eexists _, _. split.
    { unfold trace, bind, get_pc, ram_read, get_ram, of_option, ret. simpl.
      rewrite H0. simpl. rewrite H1. simpl. rewrite H2. simpl.
      do 8 (unfold get_reg at 1, of_option; simpl; rewrite Hreg; simpl).
      reflexivity. }
    split; [done|]. split.
    { simpl. by rewrite <- !(assoc_L (++)). }
    intros Hpc Hcells Hregs.
    assert (0 ≤ x0 ≤ 255 ∧ 0 ≤ x1 ≤ 255 ∧ 0 ≤ x2 ≤ 255) as (? & ? & ?).
    { apply py_get_inv in H0 as (k0 & Hk0 & Hc0).
      apply py_get_inv in H1 as (k1 & Hk1 & Hc1).
      apply py_get_inv in H2 as (k2 & Hk2 & Hc2).
      apply py_index_nonneg_inv in Hk0 as [-> ?]; [|lia].
      apply py_index_nonneg_inv in Hk1 as [-> ?]; [|lia].
      apply py_index_nonneg_inv in Hk2 as [-> ?]; [|lia].
      rewrite Forall_lookup in Hcells.
      repeat split.
      - apply (Hcells 0%nat x0).
        rewrite lookup_take_lt, lookup_drop by lia. by rewrite Nat.add_0_r.
      - apply (Hcells 0%nat x0).
        rewrite lookup_take_lt, lookup_drop by lia. by rewrite Nat.add_0_r.
      - apply (Hcells 1%nat x1).
        rewrite lookup_take_lt, lookup_drop by lia.
        by replace (Z.to_nat (pc c) + 1)%nat with (Z.to_nat (pc c + 1)) by lia.
      - apply (Hcells 1%nat x1).
        rewrite lookup_take_lt, lookup_drop by lia.
        by replace (Z.to_nat (pc c) + 1)%nat with (Z.to_nat (pc c + 1)) by lia.
      - apply (Hcells 2%nat x2).
        rewrite lookup_take_lt, lookup_drop by lia.
        by replace (Z.to_nat (pc c) + 2)%nat with (Z.to_nat (pc c + 2)) by lia.
      - apply (Hcells 2%nat x2).
        rewrite lookup_take_lt, lookup_drop by lia.
        by replace (Z.to_nat (pc c) + 2)%nat with (Z.to_nat (pc c + 2)) by lia. }
    repeat (apply Forall_cons in Hregs as [? Hregs]).
    rewrite !string_length_app, !hex2_byte by done. reflexivity.
  - intros Hnone.
    unfold trace, bind, get_pc, ram_read, get_ram, of_option, ret, raise.
    unfold ram_at in Hnone. simpl.
    destruct (py_get (ram c) (pc c)) as [x0|]; simpl; [|by eauto].
    destruct (py_get (ram c) (pc c + 1)) as [x1|]; simpl; [|by eauto].
    destruct (py_get (ram c) (pc c + 2)) as [x2|]; simpl; [|by eauto].
    by destruct Hnone as [|[|]].
Qed.

Lemma trace_prints_one_line_witness :
  (is_Some (ram_at (with_registers 10 255) (pc (with_registers 10 255))) ∧
   is_Some (ram_at (with_registers 10 255) (pc (with_registers 10 255) + 1)) ∧
   is_Some (ram_at (with_registers 10 255) (pc (with_registers 10 255) + 2)) →
   ∃ line c',
     trace (with_registers 10 255) = Ok () c' ∧
     stdout c' = stdout (with_registers 10 255) ++ [line] ∧
     ram_reads c' = ram_reads (with_registers 10 255)
                    ++ [pc (with_registers 10 255); pc (with_registers 10 255) + 1;
                        pc (with_registers 10 255) + 2] ∧
     (0 ≤ pc (with_registers 10 255) ≤ 255 →
      Forall (λ v, 0 ≤ v ≤ 255)
        (take 3 (drop (Z.to_nat (pc (with_registers 10 255)))
                   (ram (with_registers 10 255)))) →
      Forall (λ v, 0 ≤ v ≤ 255) (reg (with_registers 10 255)) →
      String.length line = 46%nat)) ∧
  (ram_at (with_registers 10 255) (pc (with_registers 10 255)) = None ∨
   ram_at (with_registers 10 255) (pc (with_registers 10 255) + 1) = None ∨
   ram_at (with_registers 10 255) (pc (with_registers 10 255) + 2) = None →
   ∃ c', trace (with_registers 10 255) = Raise IndexError c' ∧
         stdout c' = stdout (with_registers 10 255)).
Proof.
  apply (trace_prints_one_line (with_registers 10 255)). reflexivity.
Defined.

Example trace_sample :
  ∃ c', trace (with_registers 10 255) = Ok () c' ∧
        stdout c' = ["TRACE: 00 | 00 00 00 | 0A FF 00 00 00 00 00 F4"].
Proof. eexists. split; [vm_compute; reflexivity|done]. Qed.

(** * More on the decoder *)

Lemma land_low_byte x m : 0 ≤ m < 256 → Z.land x m = Z.land (x `mod` 256) m.
Proof.
  intros Hm. change 256 with (2 ^ 8).
  rewrite <- (Z.land_ones x 8) by lia. rewrite <- Z.land_assoc. f_equal.
  rewrite Z.land_comm, Z.land_ones by lia. symmetry. apply Z.mod_small. lia.
Qed.

(** X23. The decoder looks at the low byte of the opcode only, whatever
    integer the memory cell holds (negative ones included): the length is
    between 1 and 4 and the self-advance bit is 0 or 1. *)
Theorem decoder_uses_low_byte_only (IR k : Z) :
  inst_len (IR + 256 * k) = inst_len IR ∧
  incr_pc (IR + 256 * k) = incr_pc IR ∧
  1 ≤ inst_len IR ≤ 4 ∧
  0 ≤ incr_pc IR ≤ 1.
Proof.
  assert ((IR + 256 * k) `mod` 256 = IR `mod` 256) as Hmod.
  { rewrite (Z.mul_comm 256 k). apply Z_mod_plus_full. }
  split; [|split; [|split]].
  - unfold inst_len.
    by rewrite (land_low_byte (IR + 256 * k)), Hmod, <- land_low_byte by lia.
  - unfold incr_pc.
    by rewrite (land_low_byte (IR + 256 * k)), Hmod, <- land_low_byte by lia.
  - apply inst_len_bounds.
  - rewrite incr_pc_shift_mask.
    change (Z.land (Z.shiftr IR 4) 1) with (Z.land (Z.shiftr IR 4) (Z.ones 1)).
    rewrite Z.land_ones by lia.
    pose proof (Z.mod_pos_bound (Z.shiftr IR 4) (2 ^ 1)). lia.
Qed.

(** * Stack bounds *)

(** X24. The stack has no guard other than the bounds of the list: a PUSH
    whose target cell is outside memory raises IndexError with the stack
    pointer already decremented, and a POP whose source cell is outside
    memory raises IndexError with the machine unchanged. *)
Theorem stack_out_of_memory (c : CPU) (r b d sp : Z) :
  wf c →
  in_range 8 r →
  reg_at c stack_pointer = Some sp →
  (¬ in_range 255 (sp - 1) →
   handle_PUSH r b d c
   = Raise IndexError (with_reg (<[7%nat := sp - 1]> (reg c)) c)) ∧
  (¬ in_range 255 sp → handle_POP r b d c = Raise IndexError c).
Proof.
  intros (Hlen & Hram & _) [kr Hr]%py_index_in_range Hsp.
  apply (reg_at_sp _ _ Hlen) in Hsp.
  assert (∀ i, ¬ in_range 255 i → py_index (length (ram c)) i = None) as Hnone.
  { intros i Hi. rewrite Hram.
    destruct (py_index 255 i) eqn:E; [|done].
    exfalso. apply Hi, py_index_in_range. eauto. }
  split; intros Hout.
  - unfold handle_PUSH.
    rewrite (bind_Ok _ _ _ _ _ (get_reg_ok c _ _ _ (sp_index _ Hlen) Hsp)).
    rewrite (bind_Ok _ _ _ _ _ (set_reg_ok c _ _ (sp - 1) (sp_index _ Hlen))).
    set (c1 := with_reg _ c).
    assert (length (reg c1) = 8%nat) as Hlen1
      by (subst c1; simpl; by rewrite length_insert).
    destruct (lookup_lt_is_Some_2 (reg c1) kr) as [v Hv].
    { rewrite Hlen1. eauto using py_index_lt. }
    rewrite (bind_Ok _ _ c1 v c1).
    2:{ apply (get_reg_ok c1 r kr); [by rewrite Hlen1|done]. }
    rewrite (bind_Ok _ _ c1 (sp - 1) c1).
    2:{ apply (get_reg_ok c1 _ _ _ (sp_index _ Hlen1)). subst c1. simpl.
        apply list_lookup_insert_eq. lia. }
    unfold set_ram, py_set. change (ram c1) with (ram c).
    by rewrite (Hnone _ Hout).
  - unfold handle_POP.
    rewrite (bind_Ok _ _ _ _ _ (get_reg_ok c _ _ _ (sp_index _ Hlen) Hsp)).
    unfold bind, get_ram, py_get. by rewrite (Hnone _ Hout).
Qed.

Lemma stack_out_of_memory_witness :
  (¬ in_range 255 (300 - 1) →
   handle_PUSH 0 0 0 (with_reg [5; 0; 0; 0; 0; 0; 0; 300] init)
   = Raise IndexError
       (with_reg (<[7%nat := 300 - 1]> (reg (with_reg [5; 0; 0; 0; 0; 0; 0; 300] init)))
          (with_reg [5; 0; 0; 0; 0; 0; 0; 300] init))) ∧
  (¬ in_range 255 300 →
   handle_POP 0 0 0 (with_reg [5; 0; 0; 0; 0; 0; 0; 300] init)
   = Raise IndexError (with_reg [5; 0; 0; 0; 0; 0; 0; 300] init)).
Proof.
  apply (stack_out_of_memory (with_reg [5; 0; 0; 0; 0; 0; 0; 300] init) 0 0 0 300).
  - repeat split; reflexivity.
  - unfold in_range. simpl. lia.
  - reflexivity.
Defined.

(** * Running off the end *)

Lemma fetch_at_252 c :
  length (ram c) = 255%nat → pc c = 252 →
  ∃ c1, fetch c = Raise IndexError c1 ∧ pc c1 = pc c ∧ ram c1 = ram c ∧
        reg c1 = reg c ∧ stdout c1 = stdout c ∧ flags c1 = flags c.
Proof.
  intros Hram Hpc.
  assert (∀ i, 0 ≤ i < 255 → is_Some (py_get (ram c) i)) as Hin.
  { intros i Hi. apply py_get_is_Some. rewrite Hram. unfold in_range. lia. }
  assert (py_get (ram c) 255 = None) as Hout.
  { destruct (py_get (ram c) 255) eqn:E; [|done].
    assert (in_range (length (ram c)) 255) as Hr by (apply py_get_is_Some; eauto).
    rewrite Hram in Hr. unfold in_range in Hr. lia. }
  destruct (Hin (pc c) ltac:(lia)) as [x0 H0].
  destruct (Hin (pc c + 1) ltac:(lia)) as [x1 H1].
  destruct (Hin (pc c + 2) ltac:(lia)) as [x2 H2].
  replace 255 with (pc c + 3) in Hout by lia.
  unfold fetch, bind, get_pc, ram_read, get_ram, of_option, ret, raise. simpl.
  rewrite H0. simpl. rewrite H1. simpl. rewrite H2. simpl.
  rewrite Hout. eexists. split; [done|]. by simpl.
Qed.

Lemma slide_over_NOPs n :
  ∀ c extra,
    running c = true → wf c → pc c = 252 - Z.of_nat n → 0 ≤ pc c →
    (∀ i, pc c ≤ i < 255 → ram_at c i = Some NOP) →
    ∃ c', loop (S n + extra) c = Traceback IndexError c' ∧
          pc c' = 252 ∧ ram c' = ram c ∧ reg c' = reg c ∧
          flags c' = flags c ∧ stdout c' = stdout c.
Proof.
  induction n as [|n IH]; intros c extra Hrun Hwf Hpc Hpos Hnop.
  - destruct Hwf as (_ & Hram & _).
    destruct (fetch_at_252 c Hram ltac:(lia)) as (c1 & Hf & ? & ? & ? & ? & ?).
    exists c1. rewrite (loop_step _ _ Hrun). unfold cycle. rewrite Hf.
    repeat split; try done. lia.
  - assert (fetch c = Ok (NOP, NOP, NOP, NOP) (fetched c)) as Hf.
    { apply fetch_Ok. repeat split; try done; apply Hnop; lia. }
    assert (branchtable !! NOP = Some handle_NOP) as Hb by reflexivity.
    assert (handle_NOP NOP NOP NOP (fetched c) = Ok () (fetched c)) as Hh by done.
    pose proof (cycle_return _ _ _ _ _ _ _ _ Hf Hb Hh) as Hc.
    rewrite bool_decide_eq_false_2 in Hc by (apply not_control_flow; in_list).
    change (inst_len NOP) with 1 in Hc.
    set (c1 := with_pc _ _) in Hc.
    destruct (IH c1 extra) as (c' & Hl & ? & ? & ? & ? & ?); try done.
    + simpl. lia.
    + simpl. lia.
    + intros i Hi. apply Hnop. simpl in Hi. lia.
    + exists c'. change (S (S n) + extra)%nat with (S (S n + extra)).
      rewrite (loop_step _ _ Hrun), Hc. done.
Qed.

(** X25. A program that runs into memory holding only zeros does not
    stop there: every zero is a NOP, the program counter walks up to 252
    and the run dies of the IndexError of the fetch, with registers,
    memory, flags and output as they were. *)
Theorem run_off_the_end (c : CPU) (extra : nat) :
  running c = true →
  wf c →
  0 ≤ pc c ≤ 252 →
  (∀ i, pc c ≤ i < 255 → ram_at c i = Some NOP) →
  ∃ c', loop (S (Z.to_nat (252 - pc c)) + extra) c = Traceback IndexError c' ∧
        pc c' = 252 ∧ ram c' = ram c ∧ reg c' = reg c ∧
        flags c' = flags c ∧ stdout c' = stdout c.
Proof.
  intros Hrun Hwf Hpc Hnop.
  apply slide_over_NOPs; try done; lia.
Qed.

Lemma run_off_the_end_witness :
  ∃ c', loop (S (Z.to_nat (252 - pc (started []))) + 0) (started [])
        = Traceback IndexError c' ∧
        pc c' = 252 ∧ ram c' = ram (started []) ∧ reg c' = reg (started []) ∧
        flags c' = flags (started []) ∧ stdout c' = stdout (started []).
Proof.
  apply (run_off_the_end (started []) 0).
  - reflexivity.
  - repeat split; reflexivity.
  - simpl. lia.
  - intros i Hi. change (pc (started [])) with 0 in Hi.
    unfold ram_at, py_get. change (ram (started [])) with (replicate 255 0).
    rewrite length_replicate, py_index_nonneg by lia.
    apply (lookup_replicate_2 255 0 (Z.to_nat i)). lia.
Defined.

(** * Reading a handler's result backwards *)

Section Inversion.
Implicit Types (c : CPU) (i v x : Z).

Lemma bind_Ok_inv {A A'} (m : M A) (k : A → M A') c y c2 :
  bind m k c = Ok y c2 → ∃ u c1, m c = Ok u c1 ∧ k u c1 = Ok y c2.
Proof. unfold bind. destruct (m c) as [u c1|]; [eauto|done]. Qed.

Lemma get_ram_Ok_inv i c x c' : get_ram i c = Ok x c' → c' = c ∧ ram_at c i = Some x.
Proof.
  unfold get_ram, ram_at, of_option, ret, raise.
  destruct (py_get (ram c) i); intros; by simplify_eq.
Qed.

Lemma get_flag_Ok_inv i c x c' :
  get_flag i c = Ok x c' → c' = c ∧ flag_at c i = Some x.
Proof.
  unfold get_flag, flag_at, of_option, ret, raise.
  destruct (py_get (flags c) i); intros; by simplify_eq.
Qed.

Lemma set_reg_Ok_inv i v c c' :
  set_reg i v c = Ok () c' →
  ∃ k, py_index (length (reg c)) i = Some k ∧ c' = with_reg (<[k := v]> (reg c)) c.
Proof.
  unfold set_reg, py_set.
  destruct (py_index (length (reg c)) i) as [k|]; simpl; intros; simplify_eq; eauto.
Qed.

Lemma set_ram_Ok_inv i v c c' :
  set_ram i v c = Ok () c' →
  ∃ k, py_index (length (ram c)) i = Some k ∧ c' = with_ram (<[k := v]> (ram c)) c.
Proof.
  unfold set_ram, py_set.
  destruct (py_index (length (ram c)) i) as [k|]; simpl; intros; simplify_eq; eauto.
Qed.

(** JMP returns only by putting the register into [pc]. *)
Lemma handle_JMP_inv r b d c c2 :
  handle_JMP r b d c = Ok () c2 →
  ∃ v, reg_at c r = Some v ∧ c2 = with_pc v c.
Proof.
  unfold handle_JMP.
  intros (v & c1 & (Hc1 & Hv)%get_reg_Ok_inv & Hpc)%bind_Ok_inv. subst c1.
  exists v. split; [done|]. unfold set_pc in Hpc. by simplify_eq.
Qed.

Lemma handle_JEQ_inv r b d c c2 :
  handle_JEQ r b d c = Ok () c2 →
  ∃ f, flag_at c flag_equal = Some f ∧
       if bool_decide (f = 1)
       then ∃ v, reg_at c r = Some v ∧ c2 = with_pc v c
       else c2 = with_pc (pc c + 2) c.
Proof.
  unfold handle_JEQ.
  intros (f & c1 & (Hc1 & Hf)%get_flag_Ok_inv & Hrest)%bind_Ok_inv. subst c1.
  exists f. split; [done|]. case_bool_decide.
  - by apply handle_JMP_inv in Hrest.
  - unfold bind, get_pc, set_pc in Hrest. by simplify_eq.
Qed.

Lemma handle_JNE_inv r b d c c2 :
  handle_JNE r b d c = Ok () c2 →
  ∃ f, flag_at c flag_equal = Some f ∧
       if bool_decide (f = 0)
       then ∃ v, reg_at c r = Some v ∧ c2 = with_pc v c
       else c2 = with_pc (pc c + 2) c.
Proof.
  unfold handle_JNE.
  intros (f & c1 & (Hc1 & Hf)%get_flag_Ok_inv & Hrest)%bind_Ok_inv. subst c1.
  exists f. split; [done|]. case_bool_decide.
  - by apply handle_JMP_inv in Hrest.
  - unfold bind, get_pc, set_pc in Hrest. by simplify_eq.
Qed.

(** CALL returns only by storing [pc + 2] under the decremented stack
    pointer and putting the register, read after the decrement, into
    [pc]. *)
Lemma handle_CALL_inv r b d c c2 :
  handle_CALL r b d c = Ok () c2 →
  ∃ sp k ka dest,
    reg_at c stack_pointer = Some sp ∧
    py_index (length (reg c)) stack_pointer = Some k ∧
    py_index (length (ram c)) (sp - 1) = Some ka ∧
    py_get (<[k := sp - 1]> (reg c)) r = Some dest ∧
    c2 = with_pc dest
           (with_ram (<[ka := pc c + 2]> (ram c))
              (with_reg (<[k := sp - 1]> (reg c)) c)).
Proof.
  unfold handle_CALL.
  intros (p & ca & Hp & H)%bind_Ok_inv.
  unfold get_pc in Hp. simplify_eq. cbv zeta in H.
  apply bind_Ok_inv in H as (sp & cb & (Hcb & Hsp)%get_reg_Ok_inv & H).
  subst cb.
  apply bind_Ok_inv in H as ([] & cc & (k & Hk & Hcc)%set_reg_Ok_inv & H).
  subst cc.
  apply bind_Ok_inv in H as (addr & cd & (Hcd & Haddr)%get_reg_Ok_inv & H).
  subst cd. unfold reg_at in Haddr. simpl in Haddr.
  rewrite (py_get_insert_eq _ _ _ _ Hk) in Haddr. simplify_eq.
  apply bind_Ok_inv in H as ([] & ce & (ka & Hka & Hce)%set_ram_Ok_inv & H).
  subst ce.
  apply bind_Ok_inv in H as (dest & cf & (Hcf & Hdest)%get_reg_Ok_inv & H).
  subst cf. unfold set_pc in H. simplify_eq.
  exists sp, k, ka, dest. done.
Qed.

(** RET returns only by putting the cell under the stack pointer into
    register 0 and into [pc]. *)
Lemma handle_RET_inv a b d c c2 :
  handle_RET a b d c = Ok () c2 →
  ∃ sp v, reg_at c stack_pointer = Some sp ∧ ram_at c sp = Some v ∧
          pc c2 = v ∧ reg_at c2 0 = Some v.
Proof.
  unfold handle_RET. cbv zeta. unfold handle_POP.
  intros ([] & c5 & H & Hpc)%bind_Ok_inv.
  apply bind_Ok_inv in H as (sp & ca & (Hca & Hsp)%get_reg_Ok_inv & H).
  subst ca.
  apply bind_Ok_inv in H as (v & cb & (Hcb & Hv)%get_ram_Ok_inv & H).
  subst cb.
  apply bind_Ok_inv in H as ([] & cc & (k0 & Hk0 & Hcc)%set_reg_Ok_inv & H).
  subst cc.
  apply bind_Ok_inv in H as (sp' & cd & (Hcd & Hsp')%get_reg_Ok_inv & H).
  subst cd.
  apply set_reg_Ok_inv in H as (k7 & Hk7 & Hc5). subst c5.
  apply bind_Ok_inv in Hpc as (v' & ce & (Hce & Hv')%get_reg_Ok_inv & Hpc).
  subst ce. unfold set_pc in Hpc. simplify_eq.
  assert (v' = v) as ->.
  { unfold reg_at in Hv'. simpl in Hv', Hk7.
    rewrite length_insert in Hk7.
    assert (k0 ≠ k7) as Hne.
    { unfold py_index in Hk0, Hk7. unfold stack_pointer in Hk7.
      repeat case_bool_decide; simplify_eq; lia. }
    rewrite (py_get_insert_ne _ 0 k7 k0) in Hv'
      by (by rewrite ?length_insert).
    rewrite (py_get_insert_eq _ _ _ _ Hk0) in Hv'. by simplify_eq. }
  exists sp, v. done.
Qed.
End Inversion.

(** * The program counter after a cycle *)

(** C1. After a cycle that dispatched a defined opcode and came back to
    the loop test, the program counter is the previous one plus the
    decoded length [((IR >> 6) & 0b11) + 1], unless the opcode is CALL,
    RET, JMP, JEQ or JNE.  Then it is the address the handler wrote: the
    operand register for JMP; the operand register, read after the stack
    pointer went down by one and [pc + 2] was stored there, for CALL; the
    cell under the stack pointer for RET; the operand register when the
    equal flag is 1, and [pc + 2] otherwise, for JEQ; the operand
    register when the equal flag is 0, and [pc + 2] otherwise, for JNE. *)
Theorem pc_after_cycle (c c' : CPU) :
  cycle c = Next c' →
  ∃ IR a b d (h : handler) c2,
    fetch c = Ok (IR, a, b, d) (fetched c) ∧
    branchtable !! IR = Some h ∧
    h a b d (fetched c) = Ok () c2 ∧
    (IR ∉ [CALL; RET; JMP; JEQ; JNE] →
       pc c' = pc c + (Z.land (Z.shiftr IR 6) 3 + 1)) ∧
    (IR ∈ [CALL; RET; JMP; JEQ; JNE] → pc c' = pc c2) ∧
    (IR = JMP → reg_at c a = Some (pc c')) ∧
    (IR = CALL →
       ∃ sp, reg_at c stack_pointer = Some sp ∧
             reg_at c' stack_pointer = Some (sp - 1) ∧
             ram_at c' (sp - 1) = Some (pc c + 2) ∧
             reg_at c' a = Some (pc c') ∧
             (py_index (length (reg c)) a ≠ py_index (length (reg c)) stack_pointer →
              reg_at c a = Some (pc c'))) ∧
    (IR = RET →
       ∃ sp, reg_at c stack_pointer = Some sp ∧ ram_at c sp = Some (pc c')) ∧
    (IR = JEQ →
       ∃ f, flag_at c flag_equal = Some f ∧
            if bool_decide (f = 1) then reg_at c a = Some (pc c')
            else pc c' = pc c + 2) ∧
    (IR = JNE →
       ∃ f, flag_at c flag_equal = Some f ∧
            if bool_decide (f = 0) then reg_at c a = Some (pc c')
            else pc c' = pc c + 2).
Proof.
  intros (IR & a & b & d & h & c2 & Hf & Hb & Hh & ->)%cycle_Next_inv.
  exists IR, a, b, d, h, c2.
  assert (∀ IR0 h0, IR = IR0 → branchtable !! IR0 = Some h0 →
            IR0 ∈ control_flow → h = h0 ∧
            (if bool_decide (IR ∈ control_flow) then c2
             else with_pc (pc c2 + inst_len IR) c2) = c2) as Hcf.
  { intros IR0 h0 -> Hb0 Hin. split; [congruence|].
    by rewrite bool_decide_eq_true_2. }
  split; [done|]. split; [done|]. split; [done|].
  split; [|split; [|split; [|split; [|split; [|split]]]]].
  - intros Hnot. rewrite bool_decide_eq_false_2 by done. simpl.
    pose proof (handler_keeps_pc IR h a b d Hb Hnot (fetched c)) as Hk.
    rewrite Hh in Hk. rewrite Hk, inst_len_shift_mask. done.
  - intros Hin. by rewrite bool_decide_eq_true_2.
  - intros HIR.
    destruct (Hcf JMP handle_JMP HIR eq_refl ltac:(unfold control_flow; in_list))
      as [-> ->].
    apply handle_JMP_inv in Hh as (v & Hv & ->). exact Hv.
  - intros HIR.
    destruct (Hcf CALL handle_CALL HIR eq_refl ltac:(unfold control_flow; in_list))
      as [-> ->].
    apply handle_CALL_inv in Hh as (sp & k & ka & dest & Hsp & Hk & Hka & Hdest & ->).
    change (reg (fetched c)) with (reg c) in *.
    change (ram (fetched c)) with (ram c) in *.
    change (pc (fetched c)) with (pc c) in *.
    exists sp. split; [exact Hsp|]. split.
    { unfold reg_at. simpl. by apply py_get_insert_eq. }
    split.
    { unfold ram_at. simpl. by apply py_get_insert_eq. }
    split; [exact Hdest|].
    intros Hne. change (py_get (reg c) a = Some dest).
    rewrite <- Hdest. symmetry.
    destruct (py_get_inv _ _ _ Hdest) as (k' & Hk' & _).
    rewrite length_insert in Hk'.
    apply (py_get_insert_ne _ _ _ k'); [done|]. congruence.
  - intros HIR.
    destruct (Hcf RET handle_RET HIR eq_refl ltac:(unfold control_flow; in_list))
      as [-> ->].
    apply handle_RET_inv in Hh as (sp & v & Hsp & Hv & <- & _).
    exists sp. done.
  - intros HIR.
    destruct (Hcf JEQ handle_JEQ HIR eq_refl ltac:(unfold control_flow; in_list))
      as [-> ->].
    apply handle_JEQ_inv in Hh as (f & Hfl & Hh). exists f. split; [exact Hfl|].
    case_bool_decide; [by destruct Hh as (v & Hv & ->)|by subst].
  - intros HIR.
    destruct (Hcf JNE handle_JNE HIR eq_refl ltac:(unfold control_flow; in_list))
      as [-> ->].
    apply handle_JNE_inv in Hh as (f & Hfl & Hh). exists f. split; [exact Hfl|].
    case_bool_decide; [by destruct Hh as (v & Hv & ->)|by subst].
Qed.

Lemma pc_after_cycle_witness :
  cycle (with_reg [0; 40; 0; 0; 0; 0; 0; 0xF4] (loaded [JMP; 1]))
  = Next (with_pc 40 (fetched (with_reg [0; 40; 0; 0; 0; 0; 0; 0xF4] (loaded [JMP; 1])))) ∧
  reg_at (with_reg [0; 40; 0; 0; 0; 0; 0; 0xF4] (loaded [JMP; 1])) 1
  = Some (pc (with_pc 40 (fetched (with_reg [0; 40; 0; 0; 0; 0; 0; 0xF4]
                                     (loaded [JMP; 1]))))).
Proof.
  split; [reflexivity|].
  destruct (pc_after_cycle
              (with_reg [0; 40; 0; 0; 0; 0; 0; 0xF4] (loaded [JMP; 1]))
              (with_pc 40 (fetched (with_reg [0; 40; 0; 0; 0; 0; 0; 0xF4]
                                      (loaded [JMP; 1]))))
              eq_refl)
    as (IR & a & b & d & h & c2 & Hf & _ & _ & _ & _ & Hjmp & _).
  assert (IR = JMP ∧ a = 1) as [HIR ->].
  { assert (fetch (with_reg [0; 40; 0; 0; 0; 0; 0; 0xF4] (loaded [JMP; 1]))
            = Ok (JMP, 1, 0, 0)
                (fetched (with_reg [0; 40; 0; 0; 0; 0; 0; 0xF4] (loaded [JMP; 1]))))
      as Hf' by reflexivity.
    rewrite Hf' in Hf. by inversion Hf. }
  exact (Hjmp HIR).
Defined.

(** * A fetch that cannot complete *)

(** When the opcode cell exists and an operand cell does not, the fetch
    raises IndexError and only the log of reads has changed. *)
Lemma fetch_missing_operand c IR :
  ram_at c (pc c) = Some IR →
  ¬ (is_Some (ram_at c (pc c + 1)) ∧ is_Some (ram_at c (pc c + 2)) ∧
     is_Some (ram_at c (pc c + 3))) →
  ∃ c1, fetch c = Raise IndexError c1 ∧
        ram c1 = ram c ∧ reg c1 = reg c ∧ flags c1 = flags c ∧
        pc c1 = pc c ∧ running c1 = running c ∧ stdout c1 = stdout c.
Proof.
  intros HIR Hmiss.
  pose proof (fetch_frame (λ c, (ram c, reg c, flags c, pc c, running c, stdout c))
                ltac:(done) c) as Hk.
  destruct (fetch c) as [[[[IR' a] b] d] c1|e c1] eqn:Hf.
  - exfalso. apply Hmiss. apply fetch_Ok in Hf as (_ & _ & ? & ? & ?). eauto.
  - apply fetch_Raise in Hf as ->. exists c1. by simplify_eq.
Qed.

Lemma fetch_present c IR :
  ram_at c (pc c) = Some IR →
  is_Some (ram_at c (pc c + 1)) ∧ is_Some (ram_at c (pc c + 2)) ∧
  is_Some (ram_at c (pc c + 3)) →
  ∃ a b d, fetch c = Ok (IR, a, b, d) (fetched c).
Proof.
  intros HIR ([a Ha] & [b Hb] & [d Hd]). exists a, b, d. by apply fetch_Ok.
Qed.

(** C5, as stated, fails: with the program counter at 252 and the
    undefined opcode 0xFF in that cell, the opcode is read, the read of
    address 255 then raises IndexError outside the [try], and the run
    dies without having printed anything. *)
Lemma unknown_opcode_at_252_prints_nothing :
  ram_at (with_pc 252 (with_running true
            (with_ram (<[252%nat := 0xFF]> (ram init)) init))) 252 = Some 0xFF ∧
  branchtable !! 0xFF = None ∧
  ∃ c', cycle (with_pc 252 (with_running true
                 (with_ram (<[252%nat := 0xFF]> (ram init)) init)))
        = Uncaught IndexError c' ∧
        stdout c' = [] ∧
        ∀ fuel, loop (S fuel) (with_pc 252 (with_running true
                                 (with_ram (<[252%nat := 0xFF]> (ram init)) init)))
                = Traceback IndexError c'.
Proof.
  split; [reflexivity|]. split; [reflexivity|].
  eexists. split; [reflexivity|]. split; [reflexivity|].
  intros fuel. by rewrite loop_step.
Qed.

(** C5, amended.  When the opcode at [pc] has no entry in the branch
    table and the three operand cells read before the dispatch exist, the
    cycle prints [Invalid instruction] followed by the opcode in binary
    and the process exits: whatever number of cycles the loop is allowed,
    it ends there, with no register, memory cell, flag or the program
    counter changed.  When one of the three cells is outside memory, the
    run dies instead of the IndexError of the fetch and prints nothing. *)
Theorem unknown_opcode_terminates (c : CPU) (IR : Z) :
  running c = true →
  ram_at c (pc c) = Some IR →
  branchtable !! IR = None →
  (is_Some (ram_at c (pc c + 1)) ∧ is_Some (ram_at c (pc c + 2)) ∧
   is_Some (ram_at c (pc c + 3)) →
   cycle c = Exited (with_print ("Invalid instruction " +:+ bin IR) (fetched c)) ∧
   ∀ fuel, loop (S fuel) c
           = ProcessExit (with_print ("Invalid instruction " +:+ bin IR) (fetched c))) ∧
  (¬ (is_Some (ram_at c (pc c + 1)) ∧ is_Some (ram_at c (pc c + 2)) ∧
      is_Some (ram_at c (pc c + 3))) →
   ∃ c', cycle c = Uncaught IndexError c' ∧
         (∀ fuel, loop (S fuel) c = Traceback IndexError c') ∧
         stdout c' = stdout c).
Proof.
  intros Hrun HIR Hb. split.
  - intros Hcells. destruct (fetch_present c IR HIR Hcells) as (a & b & d & Hf).
    pose proof (cycle_unknown _ _ _ _ _ _ Hf Hb) as Hc.
    split; [done|]. intros fuel. by rewrite (loop_step _ _ Hrun), Hc.
  - intros Hmiss.
    destruct (fetch_missing_operand c IR HIR Hmiss) as (c1 & Hf & _ & _ & _ & _ & _ & Hout).
    assert (cycle c = Uncaught IndexError c1) as Hc by (unfold cycle; by rewrite Hf).
    exists c1. split; [done|]. split; [|done].
    intros fuel. by rewrite (loop_step _ _ Hrun), Hc.
Qed.

Lemma unknown_opcode_terminates_witness :
  cycle (started [0xFF])
  = Exited (with_print "Invalid instruction 0b11111111" (fetched (started [0xFF]))) ∧
  ∀ fuel, loop (S fuel) (started [0xFF])
          = ProcessExit (with_print "Invalid instruction 0b11111111"
                           (fetched (started [0xFF]))).
Proof.
  destruct (unknown_opcode_terminates (started [0xFF]) 0xFF eq_refl eq_refl eq_refl)
    as [Hin _].
  apply Hin. repeat split; eexists; reflexivity.
Defined.

(** X8. With HLT at [pc] on a running machine: when the three operand
    cells read before the dispatch exist, [run] returns in that same
    cycle, with the program counter just past the HLT and nothing else
    changed; when one of them is outside memory the HLT is never
    dispatched and the run dies of IndexError, still marked running. *)
Theorem HLT_stops_the_loop (c : CPU) (fuel : nat) :
  running c = true →
  ram_at c (pc c) = Some HLT →
  (is_Some (ram_at c (pc c + 1)) ∧ is_Some (ram_at c (pc c + 2)) ∧
   is_Some (ram_at c (pc c + 3)) →
   loop (S fuel) c = Halted (with_pc (pc c + 1) (with_running false (fetched c)))) ∧
  (¬ (is_Some (ram_at c (pc c + 1)) ∧ is_Some (ram_at c (pc c + 2)) ∧
      is_Some (ram_at c (pc c + 3))) →
   ∃ c', loop (S fuel) c = Traceback IndexError c' ∧
         running c' = true ∧ pc c' = pc c ∧ stdout c' = stdout c ∧
         reg c' = reg c ∧ ram c' = ram c).
Proof.
  intros Hrun HIR. split.
  - intros Hcells. destruct (fetch_present c HLT HIR Hcells) as (a & b & d & Hf).
    assert (branchtable !! HLT = Some handle_HLT) as Hb by reflexivity.
    assert (handle_HLT a b d (fetched c) = Ok () (with_running false (fetched c)))
      as Hh by reflexivity.
    rewrite (loop_step _ _ Hrun), (cycle_return _ _ _ _ _ _ _ _ Hf Hb Hh).
    rewrite bool_decide_eq_false_2 by (apply not_control_flow; in_list).
    by apply loop_stopped.
  - intros Hmiss.
    destruct (fetch_missing_operand c HLT HIR Hmiss)
      as (c1 & Hf & ? & ? & ? & ? & Hr & ?).
    exists c1. rewrite (loop_step _ _ Hrun). unfold cycle. rewrite Hf.
    repeat split; try done. by rewrite Hr.
Qed.

Lemma HLT_stops_the_loop_witness :
  loop 1 (started [HLT])
  = Halted (with_pc (pc (started [HLT]) + 1)
              (with_running false (fetched (started [HLT])))) ∧
  ∃ c', loop 1 (with_pc 252 (with_running true
                  (with_ram (<[252%nat := HLT]> (ram init)) init)))
        = Traceback IndexError c' ∧ running c' = true.
Proof.
  split.
  - destruct (HLT_stops_the_loop (started [HLT]) 0 eq_refl eq_refl) as [Hin _].
    apply Hin. repeat split; eexists; reflexivity.
  - destruct (HLT_stops_the_loop
                (with_pc 252 (with_running true
                   (with_ram (<[252%nat := HLT]> (ram init)) init)))
                0 ltac:(reflexivity) ltac:(vm_compute; reflexivity)) as [_ Hout].
    destruct Hout as (c' & Hl & Hr & _).
    + intros (_ & _ & [x Hx]). vm_compute in Hx. discriminate Hx.
    + exists c'. split; [exact Hl|exact Hr].
Defined.
